(** * rkms: the DynamoDB key store and its in-memory cache

    A shallow embedding of [dynamodb_store.go]: [NewDynamoDBStore] and the
    two operations of [DynamoDBStore], [GetEncryptedDataKeys] and
    [SetEncryptedDataKeysConditionally], as state-passing functions over
    the three collaborators the file imports:
    - the DynamoDB client, as the one table the store is configured with,
      keyed by the string attribute [id], with a strongly consistent point
      read and a conditional put;
    - the [dynamodbattribute] codec, a parameter of the store (Section
      variables), with one concrete codec to run examples on;
    - the [go-cache] cache, with its fixed countdown from insertion.

    A call is taken at one instant.  What [logger.Print] writes is not part
    of the state, and neither is the janitor of the cache, which only
    removes entries that [Get] no longer serves. *)

From Stdlib Require Import ZArith Lia.
From stdpp Require Import base option gmap strings list.

Local Open Scope string_scope.
Local Set Warnings "-register-all".

(** ** Go values *)

(** A Go [map[string]string]: [None] is the nil map, [Some m] an allocated
    one.  Neither operation of the store writes into a map it was given or
    has returned, so maps are modelled by value. *)
Abbreviation GoMap := (option (gmap string string)).

(** [type item struct { ID string; Keys map[string]string }] *)
Record item := mkItem { ID : string; Keys : GoMap }.

(** [item{}] *)
Definition item_zero : item := {| ID := ""; Keys := None |}.

(** Modelled from the spec: [IDAlreadyExistsStoreError] is declared outside
    [dynamodb_store.go]; it is the spec's [AlreadyExists{id}], a struct whose
    only field is the identifier.

    The other Go [error] values the store can return come from the AWS
    client and the codec: [AwsError] is an [awserr.Error] with its [Code()]
    and message, [PlainError] any other error value. *)
Inductive error : Type :=
| AwsError (code message : string)
| PlainError (message : string)
| IDAlreadyExistsStoreError (id : string).

(** What surrounds one call: the reading of [time.Now().UnixNano()] and
    whether the request the call sends to DynamoDB is served.  [outage] is
    [Some e] when it is not (the [ctx] deadline or cancellation fired, the
    network failed, the service throttled): the client then returns [e]
    and the table is as it was. *)
Record context := mkContext { now : Z; outage : option error }.

(** ** package dynamodb *)

Module dynamodb.

(** [dynamodb.AttributeValue], the variants a record of this table uses. *)
Inductive AttributeValue : Type :=
| AvS (s : string)
| AvN (n : string)
| AvBOOL (b : bool)
| AvNULL
| AvM (m : gmap string AttributeValue).

Definition ErrCodeConditionalCheckFailedException : string :=
  "ConditionalCheckFailedException".

Record GetItemInput := mkGetItemInput {
  gi_TableName : string;
  gi_Key : gmap string AttributeValue;
  gi_ConsistentRead : bool }.

(** [GetItemOutput.Item] is nil when the table has no such item. *)
Record GetItemOutput := mkGetItemOutput {
  Item : option (gmap string AttributeValue) }.

Record PutItemInput := mkPutItemInput {
  pi_TableName : string;
  pi_Item : gmap string AttributeValue;
  pi_ConditionExpression : string }.

(** The table the store was configured with: its items by hash key, and
    the number of requests of each kind it has received. *)
Record DynamoDB := mkDynamoDB {
  table : gmap string (gmap string AttributeValue);
  getItemCalls : nat;
  putItemCalls : nat }.

(** The hash key of the table is the string attribute [id]. *)
Definition hash_key (av : gmap string AttributeValue) : option string :=
  match av !! "id" with
  | Some (AvS k) => Some k
  | _ => None
  end.

Definition ValidationException : error :=
  AwsError "ValidationException" "the item or key does not match the table's schema".

(** A strongly consistent point read. *)
Definition GetItemWithContext (ctx : context) (input : GetItemInput)
    (db : DynamoDB) : DynamoDB * (GetItemOutput * option error) :=
  let db := {| table := table db;
               getItemCalls := S (getItemCalls db);
               putItemCalls := putItemCalls db |} in
  match outage ctx with
  | Some e => (db, (mkGetItemOutput None, Some e))
  | None =>
      match hash_key (gi_Key input) with
      | None => (db, (mkGetItemOutput None, Some ValidationException))
      | Some k => (db, (mkGetItemOutput (table db !! k), None))
      end
  end.

(** A put.  Every item of the table carries its hash key [id], so the
    condition [attribute_not_exists(id)] holds exactly when the table has
    no item under the key of the new one. *)
Definition PutItemWithContext (ctx : context) (input : PutItemInput)
    (db : DynamoDB) : DynamoDB * option error :=
  let db := {| table := table db;
               getItemCalls := getItemCalls db;
               putItemCalls := S (putItemCalls db) |} in
  match outage ctx with
  | Some e => (db, Some e)
  | None =>
      match hash_key (pi_Item input) with
      | None => (db, Some ValidationException)
      | Some k =>
          let stored := {| table := <[k := pi_Item input]> (table db);
                           getItemCalls := getItemCalls db;
                           putItemCalls := putItemCalls db |} in
          if decide (pi_ConditionExpression input = "attribute_not_exists(id)")
          then match table db !! k with
               | Some _ =>
                   (db, Some (AwsError ErrCodeConditionalCheckFailedException
                                "The conditional request failed"))
               | None => (stored, None)
               end
          else (stored, None)
      end
  end.

End dynamodb.
Import dynamodb.

(** ** package cache (patrickmn/go-cache)

    Instants and durations are in nanoseconds, as integers; instants are
    taken to stay within the range [UnixNano] can express. *)

Module cache.

(** An entry: the object and the instant (Unix nanoseconds) after which
    it is expired; [Expiration = 0] never expires. *)
Record Item := mkItem { Object : GoMap; Expiration : Z }.

#[global] Instance Item_eq_dec : EqDecision Item.
Proof. solve_decision. Defined.

Record Cache := mkCache {
  defaultExpiration : Z;
  items : gmap string Item }.

Definition NoExpiration : Z := (-1)%Z.
Definition DefaultExpiration : Z := 0%Z.

(** [cache.New(defaultExpiration, cleanupInterval)]: a default of 0 is
    stored as [NoExpiration].  The cleanup interval only drives the
    janitor, which removes entries [Get] already ignores. *)
Definition New (de cleanupInterval : Z) : Cache :=
  {| defaultExpiration := if decide (de = 0)%Z then NoExpiration else de;
     items := ∅ |}.

(** [c.Get(k)] at instant [t]: the object when the entry is there and not
    expired. *)
Definition Get (c : Cache) (k : string) (t : Z) : option GoMap :=
  match items c !! k with
  | None => None
  | Some it =>
      if decide (0 < Expiration it)%Z
      then if decide (Expiration it < t)%Z then None else Some (Object it)
      else Some (Object it)
  end.

(** [c.Set(k, x, d)] at instant [t] ([Set] is a keyword here, hence the
    underscore): with [DefaultExpiration] the duration is the default of
    the cache, and only a positive duration gives an expiry.  The expiry
    is the integer [t + d], which is what [UnixNano] returns as long as
    [t + d < 2 ^ 63]; a statement that an entry has expired is made under
    that bound. *)
Definition Set_ (c : Cache) (k : string) (x : GoMap) (d : Z) (t : Z) : Cache :=
  let d := if decide (d = DefaultExpiration) then defaultExpiration c else d in
  let e := if decide (0 < d)%Z then (t + d)%Z else 0%Z in
  {| defaultExpiration := defaultExpiration c;
     items := <[k := {| Object := x; Expiration := e |}]> (items c) |}.

End cache.

(** ** The store *)

(** Modelled from the spec: [DynamoDBConfig] is declared outside
    [dynamodb_store.go].  The fields are the four [NewDynamoDBStore] reads;
    the two durations of the spec's configuration surface (entry lifetime,
    sweep interval) are integers counting minutes. *)
Record DynamoDBConfig := mkDynamoDBConfig {
  Region : string;
  TableName : string;
  CacheExpiration : Z;
  CacheCleanupInterval : Z }.

(** [type DynamoDBStore struct { tableName; client; keysCache }].  The
    client stands for the table it talks to. *)
Record DynamoDBStore := mkDynamoDBStore {
  tableName : string;
  client : DynamoDB;
  keysCache : cache.Cache }.

(** 64-bit two's complement wrap-around of Go's [int64] arithmetic. *)
Definition wrap64 (z : Z) : Z :=
  ((z + 2 ^ 63) mod 2 ^ 64 - 2 ^ 63)%Z.

(** [time.Minute], in nanoseconds. *)
Definition Minute : Z := 60000000000%Z.

(** [NewDynamoDBStore]: [sess] is what [session.NewSession] returned, the
    table behind the session or an error. *)
Definition NewDynamoDBStore (dynamoDBConfig : DynamoDBConfig)
    (sess : DynamoDB + error) : option DynamoDBStore * option error :=
  match sess with
  | inr err => (None, Some err)
  | inl client =>
      let keysCache :=
        cache.New (wrap64 (CacheExpiration dynamoDBConfig * Minute))
                  (wrap64 (CacheCleanupInterval dynamoDBConfig * Minute)) in
      (Some {| tableName := TableName dynamoDBConfig;
               client := client;
               keysCache := keysCache |}, None)
  end.

Section Store.

(** [dynamodbattribute.MarshalMap] and [dynamodbattribute.UnmarshalMap]
    for [item]: library functions, taken as they come.  [MarshalMap]
    returns the attribute map together with its error; [UnmarshalMap av it]
    fills [it] from [av] and returns it with the error. *)
Variable MarshalMap : item -> gmap string AttributeValue * option error.
Variable UnmarshalMap :
  gmap string AttributeValue -> item -> item * option error.

Definition with_client (s : DynamoDBStore) (c : DynamoDB) : DynamoDBStore :=
  {| tableName := tableName s; client := c; keysCache := keysCache s |}.

Definition with_keysCache (s : DynamoDBStore) (c : cache.Cache) : DynamoDBStore :=
  {| tableName := tableName s; client := client s; keysCache := c |}.

(** [GetEncryptedDataKeys(ctx, id)]: the new state, the returned map and
    the returned error. *)
Definition GetEncryptedDataKeys (ctx : context) (id : string)
    (s : DynamoDBStore) : DynamoDBStore * (GoMap * option error) :=
  match cache.Get (keysCache s) id (now ctx) with
  | Some keys => (s, (keys, None))
  | None =>
      let input := {| gi_TableName := tableName s;
                      gi_Key := {[ "id" := AvS id ]};
                      gi_ConsistentRead := true |} in
      let '(db, (result, err)) := GetItemWithContext ctx input (client s) in
      let s := with_client s db in
      match err with
      | Some e => (s, (None, Some e))
      | None =>
          match Item result with
          | None => (s, (None, None))
          | Some av =>
              let '(item, err) := UnmarshalMap av item_zero in
              match err with
              | Some e => (s, (None, Some e))
              | None =>
                  (with_keysCache s
                     (cache.Set_ (keysCache s) id (Keys item)
                        cache.DefaultExpiration (now ctx)),
                   (Keys item, None))
              end
          end
      end
  end.

(** [SetEncryptedDataKeysConditionally(ctx, id, encryptedKeysMap)]: the
    new state and the returned error.  The error of [MarshalMap] is bound
    and then overwritten by the one of [PutItemWithContext], as in the
    source. *)
Definition SetEncryptedDataKeysConditionally (ctx : context) (id : string)
    (encryptedKeysMap : GoMap) (s : DynamoDBStore)
    : DynamoDBStore * option error :=
  let item := {| ID := id; Keys := encryptedKeysMap |} in
  let '(marshalledItem, err) := MarshalMap item in
  let conditionExpression := "attribute_not_exists(id)" in
  let input := {| pi_TableName := tableName s;
                  pi_Item := marshalledItem;
                  pi_ConditionExpression := conditionExpression |} in
  let '(db, err) := PutItemWithContext ctx input (client s) in
  let s := with_client s db in
  match err with
  | Some e =>
      match e with
      | AwsError code _ =>
          if decide (code = ErrCodeConditionalCheckFailedException)
          then (s, Some (IDAlreadyExistsStoreError id))
          else (s, Some e)
      | _ => (s, Some e)
      end
  | None =>
      (with_keysCache s
         (cache.Set_ (keysCache s) id encryptedKeysMap
            cache.DefaultExpiration (now ctx)),
       None)
  end.

(** *** Calls and what the caller sees of them *)

Inductive call : Type :=
| Get (id : string)
| SetConditionally (id : string) (keys : GoMap).

Inductive outcome : Type :=
| Got (keys : GoMap) (err : option error)
| SetDone (err : option error).

Definition outcome_error (o : outcome) : option error :=
  match o with
  | Got _ err => err
  | SetDone err => err
  end.

Definition perform (ctx : context) (c : call) (s : DynamoDBStore)
    : DynamoDBStore * outcome :=
  match c with
  | Get id =>
      let '(s', (keys, err)) := GetEncryptedDataKeys ctx id s in
      (s', Got keys err)
  | SetConditionally id keys =>
      let '(s', err) := SetEncryptedDataKeysConditionally ctx id keys s in
      (s', SetDone err)
  end.

(** The outcomes of a sequence of calls, each under its own context. *)
Fixpoint run (calls : list (context * call)) (s : DynamoDBStore)
    : list outcome :=
  match calls with
  | [] => []
  | (ctx, c) :: rest =>
      let '(s', o) := perform ctx c s in
      o :: run rest s'
  end.

(** The state a sequence of calls leaves. *)
Fixpoint final (calls : list (context * call)) (s : DynamoDBStore)
    : DynamoDBStore :=
  match calls with
  | [] => s
  | (ctx, c) :: rest => final rest (perform ctx c s).1
  end.

End Store.


(** ** Reads answered by the backend alone

    The spec's cache-transparency property compares the store with one
    whose cache is disabled, "forcing every read to the backend".  These
    definitions follow those words: the same two operations with no cache
    in front of the table. *)

Section Direct.

Variable MarshalMap : item -> gmap string AttributeValue * option error.
Variable UnmarshalMap :
  gmap string AttributeValue -> item -> item * option error.

Definition direct_Get (ctx : context) (tn id : string) (db : DynamoDB)
    : DynamoDB * (GoMap * option error) :=
  let input := {| gi_TableName := tn;
                  gi_Key := {[ "id" := AvS id ]};
                  gi_ConsistentRead := true |} in
  let '(db, (result, err)) := GetItemWithContext ctx input db in
  match err with
  | Some e => (db, (None, Some e))
  | None =>
      match Item result with
      | None => (db, (None, None))
      | Some av =>
          let '(item, err) := UnmarshalMap av item_zero in
          match err with
          | Some e => (db, (None, Some e))
          | None => (db, (Keys item, None))
          end
      end
  end.

Definition direct_Set (ctx : context) (tn id : string) (keys : GoMap)
    (db : DynamoDB) : DynamoDB * option error :=
  let input := {| pi_TableName := tn;
                  pi_Item := (MarshalMap {| ID := id; Keys := keys |}).1;
                  pi_ConditionExpression := "attribute_not_exists(id)" |} in
  let '(db, err) := PutItemWithContext ctx input db in
  match err with
  | Some (AwsError code msg) =>
      if decide (code = ErrCodeConditionalCheckFailedException)
      then (db, Some (IDAlreadyExistsStoreError id))
      else (db, Some (AwsError code msg))
  | _ => (db, err)
  end.

Definition direct_perform (ctx : context) (tn : string) (c : call)
    (db : DynamoDB) : DynamoDB * outcome :=
  match c with
  | Get id =>
      let '(db', (keys, err)) := direct_Get ctx tn id db in (db', Got keys err)
  | SetConditionally id keys =>
      let '(db', err) := direct_Set ctx tn id keys db in (db', SetDone err)
  end.

Fixpoint direct_run (tn : string) (calls : list (context * call))
    (db : DynamoDB) : list outcome :=
  match calls with
  | [] => []
  | (ctx, c) :: rest =>
      let '(db', o) := direct_perform ctx tn c db in
      o :: direct_run tn rest db'
  end.

(** The table a sequence of calls leaves when no cache is in front of it. *)
Fixpoint direct_final (tn : string) (calls : list (context * call))
    (db : DynamoDB) : DynamoDB :=
  match calls with
  | [] => db
  | (ctx, c) :: rest => direct_final tn rest (direct_perform ctx tn c db).1
  end.

(** *** What the store expects of the codec on a given record *)

(** If the marshalled record has a hash key at all, it is the record's
    identifier. *)
Definition files_under_id (id : string) (keys : GoMap) : Prop :=
  ∀ k, hash_key (MarshalMap {| ID := id; Keys := keys |}).1 = Some k → k = id.

(** The marshalled record decodes, and to the keys that were marshalled. *)
Definition reads_back (id : string) (keys : GoMap) : Prop :=
  let av := (MarshalMap {| ID := id; Keys := keys |}).1 in
  (UnmarshalMap av item_zero).2 = None ∧
  Keys (UnmarshalMap av item_zero).1 = keys.

Definition keyed_on (c : call) : Prop :=
  match c with
  | Get _ => True
  | SetConditionally id keys => files_under_id id keys
  end.

Definition faithful_on (c : call) : Prop :=
  match c with
  | Get _ => True
  | SetConditionally id keys =>
      ∀ k, hash_key (MarshalMap {| ID := id; Keys := keys |}).1 = Some k →
           k = id ∧ reads_back id keys
  end.

(** A call under which the cache cannot show: a read whose request would
    be served, or a write of a record the codec is faithful on. *)
Definition undisturbed (x : context * call) : Prop :=
  match x.2 with
  | Get _ => outage x.1 = None
  | SetConditionally _ _ => faithful_on x.2
  end.

End Direct.

(** ** Properties of states *)

(** The entry [Set_] writes at instant [t0] into a cache with the defaults
    of [c] is still served at instant [t]. *)
Definition unexpired (c : cache.Cache) (t0 t : Z) : Prop :=
  (cache.defaultExpiration c ≤ 0 ∨ t ≤ t0 + cache.defaultExpiration c)%Z.

(** Every identifier the cache has an entry for, expired or not, has a
    record in the table. *)
Definition cache_sound (s : DynamoDBStore) : Prop :=
  ∀ id, is_Some (cache.items (keysCache s) !! id) →
        is_Some (table (client s) !! id).

(** [s] mirrors the table [db]: it talks to a table with the same items,
    and every entry of its cache holds the keys the record of that
    identifier decodes to. *)
Definition mirrors
    (UnmarshalMap : gmap string AttributeValue -> item -> item * option error)
    (s : DynamoDBStore) (db : DynamoDB) : Prop :=
  table (client s) = table db ∧
  ∀ id it, cache.items (keysCache s) !! id = Some it →
    ∃ av, table db !! id = Some av ∧
          (UnmarshalMap av item_zero).2 = None ∧
          Keys (UnmarshalMap av item_zero).1 = cache.Object it.

(** The cache of [s] is coherent with its table: every entry, expired or
    not, holds the keys the record under that identifier decodes to. *)
Definition coherent
    (UnmarshalMap : gmap string AttributeValue -> item -> item * option error)
    (s : DynamoDBStore) : Prop :=
  ∀ id it, cache.items (keysCache s) !! id = Some it →
    ∃ av, table (client s) !! id = Some av ∧
          (UnmarshalMap av item_zero).2 = None ∧
          Keys (UnmarshalMap av item_zero).1 = cache.Object it.

(** The identifier a call is about. *)
Definition call_id (c : call) : string :=
  match c with
  | Get id => id
  | SetConditionally id _ => id
  end.

(** A read made no later than [deadline]. *)
Definition read_by (deadline : Z) (x : context * call) : Prop :=
  match x.2 with
  | Get _ => (now x.1 ≤ deadline)%Z
  | SetConditionally _ _ => False
  end.

(** ** A codec for [item]

    The encoding the library gives [item]: the attribute names are those of
    the struct tags ([id], [keys]); a string is a string attribute, and
    [NULL] when it is empty; a map is a map attribute, and [NULL] when it
    is nil or has no entry; a map with an empty key is refused with an
    error and an empty attribute map.  Decoding reads [NULL] as the zero
    value and a string or a number attribute as a string.  The errors of
    the codec are [awserr.Error] values.  The examples at concrete inputs
    run on it. *)

Module dynamodbattribute.

Definition InvalidMarshalError : error :=
  AwsError "InvalidMarshalError" "map key cannot be empty".

Definition UnmarshalTypeError : error :=
  AwsError "UnmarshalTypeError" "cannot unmarshal into the Go value".

Definition encodeString (v : string) : AttributeValue :=
  if decide (v = "") then AvNULL else AvS v.

Definition encodeKeys (keys : GoMap) : AttributeValue :=
  match keys with
  | None => AvNULL
  | Some m => if decide (m = ∅) then AvNULL else AvM (encodeString <$> m)
  end.

Definition MarshalMap (it : item) : gmap string AttributeValue * option error :=
  match Keys it with
  | Some m =>
      if decide (is_Some (m !! ""))
      then (∅, Some InvalidMarshalError)
      else ({[ "id" := encodeString (ID it); "keys" := encodeKeys (Keys it) ]},
            None)
  | None =>
      ({[ "id" := encodeString (ID it); "keys" := encodeKeys (Keys it) ]}, None)
  end.

Definition decodeString (v : AttributeValue) : option string :=
  match v with
  | AvS s => Some s
  | AvN n => Some n
  | AvNULL => Some ""
  | _ => None
  end.

Definition decodeKeys (v : AttributeValue) : option GoMap :=
  match v with
  | AvNULL => Some None
  | AvM m =>
      if decide (map_Forall (λ _ x, is_Some (decodeString x)) m)
      then Some (Some (omap decodeString m))
      else None
  | _ => None
  end.

Definition UnmarshalMap (av : gmap string AttributeValue) (it : item)
    : item * option error :=
  match match av !! "id" with
        | None => Some (ID it)
        | Some v => decodeString v
        end with
  | None => (it, Some UnmarshalTypeError)
  | Some id =>
      match match av !! "keys" with
            | None => Some (Keys it)
            | Some v => decodeKeys v
            end with
      | None => ({| ID := id; Keys := Keys it |}, Some UnmarshalTypeError)
      | Some keys => ({| ID := id; Keys := keys |}, None)
      end
  end.

End dynamodbattribute.

(** A table with one well-formed record and one that does not decode. *)
Definition sample_table : gmap string (gmap string AttributeValue) :=
  {[ "tenant-7" := {[ "id" := AvS "tenant-7";
                      "keys" := AvM {[ "dek" := AvS "ct7" ]} ]};
     "broken" := {[ "id" := AvS "broken"; "keys" := AvBOOL true ]} ]}.

Definition sample_store (ttl_minutes : Z) : DynamoDBStore :=
  {| tableName := "kms-keys";
     client := {| table := sample_table; getItemCalls := 0; putItemCalls := 0 |};
     keysCache := cache.New (wrap64 (ttl_minutes * Minute)) (wrap64 (10 * Minute)) |}.

Definition served (t : Z) : context := {| now := t; outage := None |}.

Definition unserved (t : Z) : context :=
  {| now := t; outage := Some (AwsError "RequestError" "send request failed") |}.

Definition dek (ct : string) : GoMap := Some {[ "dek" := ct ]}.

(** The store of one minute of time-to-live after [tenant-42] has been
    registered with [{"dek":"ct1"}] at instant 1. *)
Definition registered : DynamoDBStore :=
  (SetEncryptedDataKeysConditionally dynamodbattribute.MarshalMap
     (served 1) "tenant-42" (dek "ct1") (sample_store 1)).1.

(** The same registration in the store configured with a time-to-live
    of 0. *)
Definition registered0 : DynamoDBStore :=
  (SetEncryptedDataKeysConditionally dynamodbattribute.MarshalMap
     (served 1) "tenant-42" (dek "ct1") (sample_store 0)).1.

(** The scenario of the spec, followed by a read after the time-to-live
    has passed, a read of a record that does not decode and a write during
    an outage. *)
Definition scenario : list (context * call) :=
  [ (served 1, Get "tenant-42");
    (served 2, SetConditionally "tenant-42" (dek "ct1"));
    (served 3, Get "tenant-42");
    (served 4, SetConditionally "tenant-42" (dek "ct2"));
    (served (2 * Minute), Get "tenant-42");
    (served (3 * Minute), Get "broken");
    (unserved (4 * Minute), SetConditionally "tenant-43" (dek "ct3")) ].

Definition sample_config (ttl_minutes : Z) : DynamoDBConfig :=
  {| Region := "eu-west-1"; TableName := "kms-keys";
     CacheExpiration := ttl_minutes; CacheCleanupInterval := 10 |}.

Definition sample_db : DynamoDB :=
  {| table := sample_table; getItemCalls := 0; putItemCalls := 0 |}.


(** * Properties *)

(** ** The two collaborators *)

Lemma cache_Get_Set_same c k x t0 t :
  unexpired c t0 t →
  cache.Get (cache.Set_ c k x cache.DefaultExpiration t0) k t = Some x.
Proof.
  unfold unexpired, cache.Get, cache.Set_, cache.DefaultExpiration. cbn.
  intros Hlive. rewrite lookup_insert_eq. cbn.
  repeat case_decide; try done; lia.
Qed.

Lemma cache_Get_Some_entry c k t x :
  cache.Get c k t = Some x →
  ∃ it, cache.items c !! k = Some it ∧ cache.Object it = x.
Proof.
  unfold cache.Get. destruct (cache.items c !! k) as [it|]; [|done].
  intros H. exists it. split; [done|].
  repeat case_decide; congruence.
Qed.

Lemma cache_Get_no_entry c k t :
  cache.items c !! k = None → cache.Get c k t = None.
Proof. unfold cache.Get. by intros ->. Qed.

Lemma cache_Get_None_later c k t t' :
  cache.Get c k t = None → (t ≤ t')%Z → cache.Get c k t' = None.
Proof.
  unfold cache.Get. destruct (cache.items c !! k) as [it|]; [|done].
  repeat case_decide; try done; lia.
Qed.

Lemma hash_key_Key id : hash_key {[ "id" := AvS id ]} = Some id.
Proof. unfold hash_key. by rewrite lookup_singleton_eq. Qed.

(** What a put with the condition of the store does, case by case. *)
Lemma PutItem_conditional ctx tn av db :
  let counted := {| table := table db; getItemCalls := getItemCalls db;
                    putItemCalls := S (putItemCalls db) |} in
  PutItemWithContext ctx (mkPutItemInput tn av "attribute_not_exists(id)") db =
  match outage ctx with
  | Some e => (counted, Some e)
  | None =>
      match hash_key av with
      | None => (counted, Some ValidationException)
      | Some k =>
          match table db !! k with
          | Some _ =>
              (counted, Some (AwsError ErrCodeConditionalCheckFailedException
                                "The conditional request failed"))
          | None =>
              ({| table := <[k := av]> (table db);
                  getItemCalls := getItemCalls db;
                  putItemCalls := S (putItemCalls db) |}, None)
          end
      end
  end.
Proof.
  unfold PutItemWithContext. cbn.
  destruct (outage ctx); [done|]. destruct (hash_key av); [|done].
  by rewrite decide_True.
Qed.

(** The codec is faithful on every record but one with an empty map (which
    it stores as [NULL] and reads back as the nil map): what it marshals
    with a hash key is filed under the record's identifier and reads back
    as written. *)
Lemma codec_is_faithful id keys :
  keys ≠ Some ∅ →
  faithful_on dynamodbattribute.MarshalMap dynamodbattribute.UnmarshalMap
    (SetConditionally id keys).
Proof.
  intros Hne k.
  assert (∀ v, dynamodbattribute.decodeString
                 (dynamodbattribute.encodeString v) = Some v) as Hstr.
  { intros v. unfold dynamodbattribute.encodeString. by case_decide; subst. }
  unfold reads_back, dynamodbattribute.MarshalMap, hash_key,
    dynamodbattribute.UnmarshalMap. cbn.
  destruct keys as [m|]; [case_decide as Hempty|]; cbn.
  - by rewrite lookup_empty.
  - rewrite lookup_insert_eq.
    unfold dynamodbattribute.encodeString at 1.
    case_decide as Hid0; [done|]. intros [= <-].
    rewrite Hstr, lookup_insert_ne, lookup_singleton_eq by done.
    rewrite decide_False by congruence. cbn.
    rewrite decide_True.
    + cbn. repeat split. do 2 f_equal. apply map_eq. intros i.
      rewrite lookup_omap, lookup_fmap. destruct (m !! i); [apply Hstr|done].
    + intros i x. rewrite lookup_fmap.
      destruct (m !! i); intros [= <-]. rewrite Hstr. eauto.
  - rewrite lookup_insert_eq.
    unfold dynamodbattribute.encodeString at 1.
    case_decide as Hid0; [done|]. intros [= <-].
    by rewrite Hstr, lookup_insert_ne, lookup_singleton_eq.
Qed.

Section Properties.

Variable MarshalMap : item -> gmap string AttributeValue * option error.
Variable UnmarshalMap :
  gmap string AttributeValue -> item -> item * option error.

Local Abbreviation GetKeys := (GetEncryptedDataKeys UnmarshalMap).
Local Abbreviation SetKeys := (SetEncryptedDataKeysConditionally MarshalMap).

(** *** The write path *)

(** A successful write: the request was served, the marshalled record had
    a hash key free in the table, the record is stored under it and the
    caller's map is cached under [id]. *)
Lemma Set_success ctx id keys s s1 :
  SetKeys ctx id keys s = (s1, None) →
  let av := (MarshalMap {| ID := id; Keys := keys |}).1 in
  ∃ k, outage ctx = None ∧ hash_key av = Some k ∧
       table (client s) !! k = None ∧
       table (client s1) = <[k := av]> (table (client s)) ∧
       tableName s1 = tableName s ∧
       keysCache s1 =
         cache.Set_ (keysCache s) id keys cache.DefaultExpiration (now ctx).
Proof.
  unfold SetEncryptedDataKeysConditionally.
  destruct (MarshalMap _) as [av merr] eqn:HM. cbn.
  rewrite PutItem_conditional.
  destruct (outage ctx) as [e|] eqn:Ho.
  { destruct e; [case_decide|..]; intros [= <-]. }
  destruct (hash_key av) as [k|] eqn:Hk; [|intros [= <-]].
  destruct (table (client s) !! k) eqn:Ht.
  { rewrite decide_True by done. intros [= <-]. }
  intros [= <-]. exists k. by repeat split.
Qed.

(** A failed write leaves the table and the cache as they were. *)
Lemma Set_failure ctx id keys s s1 e :
  SetKeys ctx id keys s = (s1, Some e) →
  keysCache s1 = keysCache s ∧ table (client s1) = table (client s) ∧
  tableName s1 = tableName s.
Proof.
  unfold SetEncryptedDataKeysConditionally.
  destruct (MarshalMap _) as [av merr]. cbn.
  rewrite PutItem_conditional.
  destruct (outage ctx) as [e0|].
  { destruct e0; [case_decide|..]; by intros [= <- <-]. }
  destruct (hash_key av) as [k|]; [|by intros [= <- <-]].
  destruct (table (client s) !! k).
  { rewrite decide_True by done. by intros [= <- <-]. }
  intros [=].
Qed.

(** A served write of a record whose key is taken is refused with
    [IDAlreadyExistsStoreError]. *)
Lemma Set_taken ctx id keys s k :
  outage ctx = None →
  hash_key (MarshalMap {| ID := id; Keys := keys |}).1 = Some k →
  is_Some (table (client s) !! k) →
  ∃ s1, SetKeys ctx id keys s = (s1, Some (IDAlreadyExistsStoreError id)).
Proof.
  intros Ho Hk [old Hold]. unfold SetEncryptedDataKeysConditionally.
  destruct (MarshalMap _) as [av merr]. cbn in *.
  rewrite PutItem_conditional, Ho, Hk, Hold.
  rewrite decide_True by done. eauto.
Qed.

(** *** The read path *)

Lemma Get_hit ctx id s keys :
  cache.Get (keysCache s) id (now ctx) = Some keys →
  GetKeys ctx id s = (s, (keys, None)).
Proof. unfold GetEncryptedDataKeys. by intros ->. Qed.

(** A read that misses the cache, by what the backend answers. *)
Lemma Get_miss ctx id s :
  cache.Get (keysCache s) id (now ctx) = None →
  let counted := with_client s
    {| table := table (client s); getItemCalls := S (getItemCalls (client s));
       putItemCalls := putItemCalls (client s) |} in
  GetKeys ctx id s =
  match outage ctx with
  | Some e => (counted, (None, Some e))
  | None =>
      match table (client s) !! id with
      | None => (counted, (None, None))
      | Some av =>
          match (UnmarshalMap av item_zero).2 with
          | Some e => (counted, (None, Some e))
          | None =>
              (with_keysCache counted
                 (cache.Set_ (keysCache s) id
                    (Keys (UnmarshalMap av item_zero).1)
                    cache.DefaultExpiration (now ctx)),
               (Keys (UnmarshalMap av item_zero).1, None))
          end
      end
  end.
Proof.
  intros Hmiss. unfold GetEncryptedDataKeys, GetItemWithContext.
  rewrite Hmiss. cbn. destruct (outage ctx); [done|].
  rewrite hash_key_Key. cbn.
  destruct (table (client s) !! id) as [av|]; [|done].
  by destruct (UnmarshalMap av item_zero) as [it [e|]].
Qed.

(** A read that misses the cache, of an identifier without a record: the
    request is counted, and the result is the nil map with the error of the
    request, if any. *)
Lemma Get_miss_absent ctx id s :
  cache.Get (keysCache s) id (now ctx) = None →
  table (client s) !! id = None →
  GetKeys ctx id s =
  (with_client s
     {| table := table (client s); getItemCalls := S (getItemCalls (client s));
        putItemCalls := putItemCalls (client s) |}, (None, outage ctx)).
Proof.
  intros Hmiss Habs. rewrite (Get_miss _ _ _ Hmiss), Habs.
  by destruct (outage ctx).
Qed.

(** *** The contract of the two operations *)

(** C1, create-once, as the code has it: when a write of [keys1] under
    [id] has succeeded and its record is filed under [id], a later write
    of [keys2] under the same [id] whose request is served and whose
    marshalled record has [id] as hash key returns
    [IDAlreadyExistsStoreError id], and a read of [id] after it returns
    [keys1]: from the cache while the entry is live, and otherwise from
    the table, when the request is served and the record reads back as
    written. *)
Theorem create_once ctx1 ctx2 ctx3 id keys1 keys2 s s1 :
  SetKeys ctx1 id keys1 s = (s1, None) →
  files_under_id MarshalMap id keys1 →
  hash_key (MarshalMap {| ID := id; Keys := keys2 |}).1 = Some id →
  outage ctx2 = None →
  is_Some (cache.Get (keysCache s1) id (now ctx3)) ∨
    (outage ctx3 = None ∧ reads_back MarshalMap UnmarshalMap id keys1) →
  ∃ s2, SetKeys ctx2 id keys2 s1 = (s2, Some (IDAlreadyExistsStoreError id)) ∧
        (GetKeys ctx3 id s2).2 = (keys1, None).
Proof.
  intros Hset Hk1 Hk2 Ho2 Hread.
  destruct (Set_success _ _ _ _ _ Hset) as (k & _ & Hk & _ & Htab & _ & Hc).
  cbn in Hk. apply Hk1 in Hk as ->.
  destruct (Set_taken ctx2 id keys2 s1 id Ho2 Hk2) as [s2 Hset2].
  { rewrite Htab, lookup_insert_eq. eauto. }
  exists s2. split; [done|].
  destruct (Set_failure _ _ _ _ _ _ Hset2) as (Hc2 & Htab2 & _).
  destruct (cache.Get (keysCache s2) id (now ctx3)) as [x|] eqn:Hg.
  - rewrite (Get_hit _ _ _ _ Hg). cbn. f_equal.
    destruct (cache_Get_Some_entry _ _ _ _ Hg) as (it & Hit & <-).
    rewrite Hc2, Hc in Hit. cbn in Hit.
    rewrite lookup_insert_eq in Hit. by injection Hit as <-.
  - destruct Hread as [[x Hx]|[Ho3 [Hdec Hkeys]]].
    { rewrite <- Hc2 in Hx. congruence. }
    rewrite (Get_miss _ _ _ Hg), Ho3, Htab2, Htab, lookup_insert_eq.
    cbn in Hdec, Hkeys. rewrite Hdec. cbn. by rewrite Hkeys.
Qed.

(** C2, read-your-write: after a successful write of [keys] under [id], a
    read of [id] made while the entry just written is unexpired returns
    exactly [keys], with no error, and leaves the state as it is: the
    cache answers and no request is sent. *)
Theorem read_your_write ctx1 ctx2 id keys s s1 :
  SetKeys ctx1 id keys s = (s1, None) →
  unexpired (keysCache s) (now ctx1) (now ctx2) →
  GetKeys ctx2 id s1 = (s1, (keys, None)).
Proof.
  intros Hset Hlive.
  destruct (Set_success _ _ _ _ _ Hset) as (k & _ & _ & _ & _ & _ & Hc).
  apply Get_hit. rewrite Hc. by apply cache_Get_Set_same.
Qed.

(** C3, the write path does not read the cache: on two stores that differ
    only in their caches, a write returns the same error (or none) and
    leaves the same table, namely what the write without any cache in
    front of the table returns and leaves. *)
Theorem set_outcome_ignores_cache ctx id keys tn db c1 c2 :
  let r1 := SetKeys ctx id keys (mkDynamoDBStore tn db c1) in
  let r2 := SetKeys ctx id keys (mkDynamoDBStore tn db c2) in
  r1.2 = r2.2 ∧ client r1.1 = client r2.1 ∧
  (client r1.1, r1.2) = direct_Set MarshalMap ctx tn id keys db.
Proof.
  unfold SetEncryptedDataKeysConditionally, direct_Set.
  destruct (MarshalMap _) as [av merr]. cbn.
  destruct (PutItemWithContext _ _ _) as [db' [e|]]; [|done].
  destruct e; [case_decide|..]; done.
Qed.

(** C4, an unknown identifier is absent, not an error: when the cache has
    no live entry for [id], the request is served and the table has no
    record under [id], the read returns the nil map and no error, and the
    cache and the table are as before. *)
Theorem get_unknown_is_absent ctx id s :
  cache.Get (keysCache s) id (now ctx) = None →
  outage ctx = None →
  table (client s) !! id = None →
  (GetKeys ctx id s).2 = (None, None) ∧
  keysCache (GetKeys ctx id s).1 = keysCache s ∧
  table (client (GetKeys ctx id s).1) = table (client s).
Proof.
  intros Hmiss Ho Habs. by rewrite (Get_miss _ _ _ Hmiss), Ho, Habs.
Qed.

(** C5, no cache mutation on failure: whichever of the two operations is
    called, if it returns an error the cache after the call is the cache
    before it. *)
Theorem failure_leaves_cache ctx c s :
  is_Some (outcome_error (perform MarshalMap UnmarshalMap ctx c s).2) →
  keysCache (perform MarshalMap UnmarshalMap ctx c s).1 = keysCache s.
Proof.
  destruct c as [id|id keys]; cbn.
  - destruct (cache.Get (keysCache s) id (now ctx)) as [x|] eqn:Hg.
    { rewrite (Get_hit _ _ _ _ Hg). cbn. by intros [? ?]. }
    rewrite (Get_miss _ _ _ Hg).
    destruct (outage ctx); [done|].
    destruct (table (client s) !! id) as [av|]; [|done].
    destruct (UnmarshalMap av item_zero).2; [done|].
    cbn. by intros [? ?].
  - destruct (SetKeys ctx id keys s) as [s1 [e|]] eqn:Hset; cbn.
    + intros _. by destruct (Set_failure _ _ _ _ _ _ Hset).
    + by intros [? ?].
Qed.

(** C6, a record that does not decode is an error: when the read reaches
    the table (the cache has no live entry for [id]), the table has a
    record under [id] and [UnmarshalMap] fails on it with [e], the read
    returns the nil map together with an error, never the absent result:
    the error is [e], or the one of the request when the request is not
    served.  Nothing is cached. *)
Theorem corrupt_record_is_error ctx id s av e :
  cache.Get (keysCache s) id (now ctx) = None →
  table (client s) !! id = Some av →
  (UnmarshalMap av item_zero).2 = Some e →
  (∃ e', (GetKeys ctx id s).2 = (None, Some e') ∧
         (outage ctx = None → e' = e)) ∧
  (GetKeys ctx id s).2 ≠ (None, None) ∧
  keysCache (GetKeys ctx id s).1 = keysCache s.
Proof.
  intros Hmiss Hrec Hdec.
  rewrite (Get_miss _ _ _ Hmiss), Hrec, Hdec.
  destruct (outage ctx) as [e0|]; cbn.
  - split; [exists e0; split; [done|congruence] | done].
  - split; [exists e; split; done | done].
Qed.

(** C7, cache soundness: a call only ever changes the cache entry of an
    identifier that has a record in the table when the call returns, so
    the property that every cached identifier has a record is preserved
    by every call.  The codec is taken to file a record it marshals under
    the record's identifier. *)
Theorem cache_soundness_preserved ctx c s :
  keyed_on MarshalMap c →
  let s' := (perform MarshalMap UnmarshalMap ctx c s).1 in
  (∀ k, cache.items (keysCache s') !! k ≠ cache.items (keysCache s) !! k →
        is_Some (table (client s') !! k)) ∧
  (cache_sound s → cache_sound s').
Proof.
  intros Hkeyed.
  assert (∀ s' : DynamoDBStore,
    (∀ k, is_Some (table (client s) !! k) → is_Some (table (client s') !! k)) →
    (∀ k, cache.items (keysCache s') !! k ≠ cache.items (keysCache s) !! k →
          is_Some (table (client s') !! k)) →
    (∀ k, cache.items (keysCache s') !! k ≠ cache.items (keysCache s) !! k →
          is_Some (table (client s') !! k)) ∧
    (cache_sound s → cache_sound s')) as Hgen.
  { intros s' Hgrow Hnew. split; [done|]. intros Hs k Hk.
    destruct (decide (cache.items (keysCache s') !! k
                      = cache.items (keysCache s) !! k)) as [Heq|Hne].
    - apply Hgrow, Hs. by rewrite <- Heq.
    - by apply Hnew. }
  destruct c as [id|id keys]; cbn.
  - destruct (cache.Get (keysCache s) id (now ctx)) as [x|] eqn:Hg.
    { rewrite (Get_hit _ _ _ _ Hg). cbn. by apply Hgen. }
    rewrite (Get_miss _ _ _ Hg).
    destruct (outage ctx); [by apply Hgen|].
    destruct (table (client s) !! id) as [av|] eqn:Hrec; [|by apply Hgen].
    destruct (UnmarshalMap av item_zero).2; [by apply Hgen|].
    apply Hgen; cbn; [done|]. intros k Hk.
    destruct (decide (k = id)) as [->|Hne]; [by rewrite Hrec|].
    by rewrite lookup_insert_ne in Hk.
  - destruct (SetKeys ctx id keys s) as [s1 [e|]] eqn:Hset; cbn.
    + destruct (Set_failure _ _ _ _ _ _ Hset) as (Hc & Ht & _).
      apply Hgen; [by rewrite Ht | by rewrite Hc].
    + destruct (Set_success _ _ _ _ _ Hset) as (k & _ & Hk & Hfree & Ht & _ & Hc).
      cbn in Hk. apply Hkeyed in Hk as ->.
      apply Hgen; [rewrite Ht | rewrite Ht, Hc; cbn].
      * intros k [x Hx]. destruct (decide (id = k)) as [->|Hne]; [congruence|].
        rewrite lookup_insert_ne by done. eauto.
      * intros k Hk. destruct (decide (k = id)) as [->|Hne].
        { rewrite lookup_insert_eq. eauto. }
        by rewrite lookup_insert_ne in Hk.
Qed.

(** C9, the error of [MarshalMap] is dropped: when marshalling the record
    returns the attribute map [av] together with an error [e], the write
    does exactly what it does for a marshaller that returns [av] and no
    error.  The put is attempted with [av] all the same: one [PutItem]
    request is sent, and when it is served and the hash key of [av] is
    free, [av] is stored under it, the caller's keys are cached and the
    write returns no error.  The error the write returns is the one of
    the put: the error of the request when it is not served (a failed
    condition check as [IDAlreadyExistsStoreError]), the validation error
    when [av] has no hash key, [IDAlreadyExistsStoreError] when its key
    is taken.  [e] has no part in the state or in the error returned. *)
Theorem marshal_error_is_discarded ctx id keys s av e :
  MarshalMap {| ID := id; Keys := keys |} = (av, Some e) →
  let counted :=
    {| tableName := tableName s;
       client := {| table := table (client s);
                    getItemCalls := getItemCalls (client s);
                    putItemCalls := S (putItemCalls (client s)) |};
       keysCache := keysCache s |} in
  SetKeys ctx id keys s =
    SetEncryptedDataKeysConditionally (λ _, (av, None)) ctx id keys s ∧
  SetKeys ctx id keys s =
    match outage ctx with
    | Some (AwsError code msg) =>
        if decide (code = ErrCodeConditionalCheckFailedException)
        then (counted, Some (IDAlreadyExistsStoreError id))
        else (counted, Some (AwsError code msg))
    | Some e0 => (counted, Some e0)
    | None =>
        match hash_key av with
        | None => (counted, Some ValidationException)
        | Some k =>
            match table (client s) !! k with
            | Some _ => (counted, Some (IDAlreadyExistsStoreError id))
            | None =>
                ({| tableName := tableName s;
                    client := {| table := <[k := av]> (table (client s));
                                 getItemCalls := getItemCalls (client s);
                                 putItemCalls := S (putItemCalls (client s)) |};
                    keysCache := cache.Set_ (keysCache s) id keys
                                   cache.DefaultExpiration (now ctx) |},
                 None)
            end
        end
    end.
Proof.
  intros HM. unfold SetEncryptedDataKeysConditionally. rewrite HM.
  split; [done|]. cbn. rewrite PutItem_conditional.
  destruct (outage ctx) as [e0|].
  { destruct e0; [case_decide|..]; done. }
  destruct (hash_key av) as [k|]; [|done].
  destruct (table (client s) !! k); [|done].
  by rewrite decide_True.
Qed.

(** C10, no negative caching: a read of an identifier the table has no
    record for leaves the cache and the table as they were.  So the next
    read of that identifier sends a request to the backend again: in every
    sound state (the cache then has no entry for it), and in any state
    when the first read went to the backend and the next one is made no
    earlier. *)
Theorem absent_is_not_cached ctx ctx' id s :
  table (client s) !! id = None →
  let s1 := (GetKeys ctx id s).1 in
  keysCache s1 = keysCache s ∧
  table (client s1) = table (client s) ∧
  (cache_sound s ∨
   (cache.Get (keysCache s) id (now ctx) = None ∧ (now ctx ≤ now ctx')%Z) →
   getItemCalls (client (GetKeys ctx' id s1).1) = S (getItemCalls (client s1)) ∧
   keysCache (GetKeys ctx' id s1).1 = keysCache s).
Proof.
  intros Habs.
  assert (keysCache (GetKeys ctx id s).1 = keysCache s ∧
          table (client (GetKeys ctx id s).1) = table (client s)) as [Hc Ht].
  { destruct (cache.Get (keysCache s) id (now ctx)) as [x|] eqn:Hg.
    - by rewrite (Get_hit _ _ _ _ Hg).
    - by rewrite (Get_miss_absent _ _ _ Hg Habs). }
  cbn. split; [done|]. split; [done|]. intros Hnext.
  assert (cache.Get (keysCache (GetKeys ctx id s).1) id (now ctx') = None)
    as Hmiss.
  { rewrite Hc. destruct Hnext as [Hsound|[Hg Hle]].
    - apply cache_Get_no_entry.
      destruct (cache.items (keysCache s) !! id) as [it|] eqn:Hit; [|done].
      destruct (Hsound id) as [av Hav]; [by eexists|congruence].
    - by apply (cache_Get_None_later _ _ (now ctx)). }
  rewrite Get_miss_absent by (done || by rewrite Ht). by cbn.
Qed.

(** *** The store against the table alone *)

Lemma Set_cases ctx id keys s :
  let av := (MarshalMap {| ID := id; Keys := keys |}).1 in
  let counted := with_client s
    {| table := table (client s); getItemCalls := getItemCalls (client s);
       putItemCalls := S (putItemCalls (client s)) |} in
  SetKeys ctx id keys s =
  match outage ctx with
  | Some e =>
      (counted,
       Some match e with
            | AwsError code _ =>
                if decide (code = ErrCodeConditionalCheckFailedException)
                then IDAlreadyExistsStoreError id else e
            | _ => e
            end)
  | None =>
      match hash_key av with
      | None => (counted, Some ValidationException)
      | Some k =>
          match table (client s) !! k with
          | Some _ => (counted, Some (IDAlreadyExistsStoreError id))
          | None =>
              ({| tableName := tableName s;
                  client := {| table := <[k := av]> (table (client s));
                               getItemCalls := getItemCalls (client s);
                               putItemCalls := S (putItemCalls (client s)) |};
                  keysCache := cache.Set_ (keysCache s) id keys
                                 cache.DefaultExpiration (now ctx) |}, None)
          end
      end
  end.
Proof.
  unfold SetEncryptedDataKeysConditionally.
  destruct (MarshalMap _) as [av merr]. cbn.
  rewrite PutItem_conditional.
  destruct (outage ctx) as [e|].
  { destruct e; [case_decide|..]; done. }
  destruct (hash_key av) as [k|]; [|done].
  destruct (table (client s) !! k); [|done].
  by rewrite decide_True.
Qed.

Lemma direct_Set_cases ctx tn id keys db :
  let av := (MarshalMap {| ID := id; Keys := keys |}).1 in
  let counted := {| table := table db; getItemCalls := getItemCalls db;
                    putItemCalls := S (putItemCalls db) |} in
  direct_Set MarshalMap ctx tn id keys db =
  match outage ctx with
  | Some e =>
      (counted,
       Some match e with
            | AwsError code _ =>
                if decide (code = ErrCodeConditionalCheckFailedException)
                then IDAlreadyExistsStoreError id else e
            | _ => e
            end)
  | None =>
      match hash_key av with
      | None => (counted, Some ValidationException)
      | Some k =>
          match table db !! k with
          | Some _ => (counted, Some (IDAlreadyExistsStoreError id))
          | None =>
              ({| table := <[k := av]> (table db);
                  getItemCalls := getItemCalls db;
                  putItemCalls := S (putItemCalls db) |}, None)
          end
      end
  end.
Proof.
  unfold direct_Set. cbn. rewrite PutItem_conditional.
  destruct (outage ctx) as [e|].
  { destruct e; [case_decide|..]; done. }
  destruct (hash_key _) as [k|]; [|done].
  destruct (table db !! k); [|done].
  by rewrite decide_True.
Qed.

Lemma direct_Get_cases ctx tn id db :
  let counted := {| table := table db; getItemCalls := S (getItemCalls db);
                    putItemCalls := putItemCalls db |} in
  direct_Get UnmarshalMap ctx tn id db =
  match outage ctx with
  | Some e => (counted, (None, Some e))
  | None =>
      match table db !! id with
      | None => (counted, (None, None))
      | Some av =>
          match (UnmarshalMap av item_zero).2 with
          | Some e => (counted, (None, Some e))
          | None => (counted, (Keys (UnmarshalMap av item_zero).1, None))
          end
      end
  end.
Proof.
  unfold direct_Get, GetItemWithContext. cbn.
  destruct (outage ctx); [done|].
  rewrite hash_key_Key. cbn.
  destruct (table db !! id) as [av|]; [|done].
  by destruct (UnmarshalMap av item_zero) as [it [e|]].
Qed.

(** One call keeps the store and the table alone in step, and returns the
    same outcome on both. *)
Lemma perform_mirrors ctx c s db :
  mirrors UnmarshalMap s db →
  undisturbed MarshalMap UnmarshalMap (ctx, c) →
  let r := perform MarshalMap UnmarshalMap ctx c s in
  let r' := direct_perform MarshalMap UnmarshalMap ctx (tableName s) c db in
  r.2 = r'.2 ∧ mirrors UnmarshalMap r.1 r'.1 ∧ tableName r.1 = tableName s.
Proof.
  intros [Htab Hcache] Hund.
  destruct db as [t gets puts]. cbn in Htab, Hcache. subst t.
  assert (∀ (s' : DynamoDBStore) (db' : DynamoDB) (o : outcome),
    table (client s') = table (client s) → keysCache s' = keysCache s →
    table db' = table (client s) → tableName s' = tableName s →
    (s', o).2 = (db', o).2 ∧ mirrors UnmarshalMap (s', o).1 (db', o).1 ∧
    tableName (s', o).1 = tableName s) as Hsame.
  { intros s' db' o Ht Hc Hd Hn. cbn. repeat split; try done.
    - congruence.
    - rewrite Hc, Hd. apply Hcache. }
  destruct c as [id|id keys]; cbn in *.
  - rewrite direct_Get_cases, Hund. cbn.
    destruct (cache.Get (keysCache s) id (now ctx)) as [x|] eqn:Hg.
    + rewrite (Get_hit _ _ _ _ Hg).
      destruct (cache_Get_Some_entry _ _ _ _ Hg) as (it & Hit & <-).
      destruct (Hcache _ _ Hit) as (av & Hav & Hdec & Hkeys).
      rewrite Hav, Hdec. cbn. rewrite Hkeys. by apply Hsame.
    + rewrite (Get_miss _ _ _ Hg), Hund.
      destruct (table (client s) !! id) as [av|] eqn:Hav; [|by apply Hsame].
      destruct (UnmarshalMap av item_zero).2 eqn:Hdec; [by apply Hsame|].
      cbn. split; [done|]. split; [|done]. split; [done|]. cbn. intros id' it.
      destruct (decide (id' = id)) as [->|Hne].
      * rewrite lookup_insert_eq. intros [= <-]. cbn. by exists av.
      * rewrite lookup_insert_ne by done. apply Hcache.
  - rewrite Set_cases, direct_Set_cases. cbn.
    destruct (outage ctx) as [e|]; [by apply Hsame|].
    destruct (hash_key _) as [k|]; [|by apply Hsame].
    destruct (table (client s) !! k) eqn:Hfree; [by apply Hsame|].
    destruct (Hund k eq_refl) as [-> [Hdec Hkeys]].
    cbn. split; [done|]. split; [|done]. split; [done|].
    cbn. intros id' it.
    destruct (decide (id' = id)) as [->|Hne].
    + rewrite !lookup_insert_eq. intros [= <-]. cbn. eauto.
    + rewrite !lookup_insert_ne by done. apply Hcache.
Qed.

Lemma run_mirrors calls : ∀ s db,
  mirrors UnmarshalMap s db →
  Forall (undisturbed MarshalMap UnmarshalMap) calls →
  run MarshalMap UnmarshalMap calls s =
  direct_run MarshalMap UnmarshalMap (tableName s) calls db.
Proof.
  induction calls as [|[ctx c] calls IH]; intros s db Hm Hall; [done|].
  apply Forall_cons in Hall as [Hc Hall]. cbn.
  destruct (perform_mirrors ctx c s db Hm Hc) as (Ho & Hm' & Htn).
  destruct (perform _ _ ctx c s) as [s' o].
  destruct (direct_perform _ _ ctx _ c db) as [db' o']. cbn in *.
  rewrite Ho, <- Htn. f_equal. by apply IH.
Qed.

(** C8, cache transparency, as the code has it: take two stores made by
    [NewDynamoDBStore] over the same table, whatever their configured
    times-to-live (0 included), and any sequence of calls in which the
    request of every read would be served and every record written is one
    the codec files under its identifier and reads back as written.  The
    two stores return the same outcomes, call by call, and these are the
    outcomes of the same calls answered by the table alone, with no
    cache. *)
Theorem cache_is_transparent cfg0 cfg db calls s0 s1 :
  TableName cfg0 = TableName cfg →
  NewDynamoDBStore cfg0 (inl db) = (Some s0, None) →
  NewDynamoDBStore cfg (inl db) = (Some s1, None) →
  Forall (undisturbed MarshalMap UnmarshalMap) calls →
  run MarshalMap UnmarshalMap calls s0 = run MarshalMap UnmarshalMap calls s1 ∧
  run MarshalMap UnmarshalMap calls s1 =
    direct_run MarshalMap UnmarshalMap (TableName cfg) calls db.
Proof.
  intros Htn [= <-] [= <-] Hall.
  assert (∀ c, mirrors UnmarshalMap
            {| tableName := TableName c; client := db;
               keysCache := cache.New (wrap64 (CacheExpiration c * Minute))
                              (wrap64 (CacheCleanupInterval c * Minute)) |} db)
    as Hfresh.
  { intros c. split; [done|]. cbn. intros id it. by rewrite lookup_empty. }
  rewrite (run_mirrors calls _ db (Hfresh cfg0) Hall).
  rewrite (run_mirrors calls _ db (Hfresh cfg) Hall).
  cbn. by rewrite Htn.
Qed.

(** *** Further properties of the two operations *)

Lemma Get_counts_a_miss ctx id s :
  cache.Get (keysCache s) id (now ctx) = None →
  getItemCalls (client (GetKeys ctx id s).1) = S (getItemCalls (client s)).
Proof.
  intros Hmiss. rewrite (Get_miss _ _ _ Hmiss).
  destruct (outage ctx); [done|].
  destruct (table (client s) !! id) as [av|]; [|done].
  by destruct (UnmarshalMap av item_zero).2.
Qed.

Lemma perform_keeps_records ctx c s k av :
  table (client s) !! k = Some av →
  table (client (perform MarshalMap UnmarshalMap ctx c s).1) !! k = Some av.
Proof.
  intros Hrec. destruct c as [id|id keys]; cbn.
  - destruct (cache.Get (keysCache s) id (now ctx)) as [x|] eqn:Hg.
    { by rewrite (Get_hit _ _ _ _ Hg). }
    rewrite (Get_miss _ _ _ Hg).
    destruct (outage ctx); [done|].
    destruct (table (client s) !! id); [|done].
    by destruct (UnmarshalMap _ item_zero).2.
  - rewrite Set_cases.
    destruct (outage ctx); [done|].
    destruct (hash_key _) as [k'|]; [|done].
    destruct (table (client s) !! k') eqn:Hfree; [done|]. cbn.
    rewrite lookup_insert_ne; [done|congruence].
Qed.

Lemma final_keeps_records calls : ∀ s k av,
  table (client s) !! k = Some av →
  table (client (final MarshalMap UnmarshalMap calls s)) !! k = Some av.
Proof.
  induction calls as [|[ctx c] calls IH]; intros s k av Hrec; [done|].
  cbn. by apply IH, perform_keeps_records.
Qed.

(** X1, append-only: no sequence of calls changes or removes a record the
    table has. *)
Theorem records_are_permanent calls s k av :
  table (client s) !! k = Some av →
  table (client (final MarshalMap UnmarshalMap calls s)) !! k = Some av.
Proof.
  revert s. induction calls as [|[ctx c] calls IH]; intros s Hrec; [done|].
  cbn [final]. by apply IH, perform_keeps_records.
Qed.

(** X2, registration is permanent: once a write under [id] has succeeded
    and its record is filed under [id], then after any calls whatever the
    record it stored is still the one under [id], and every served write
    under [id] whose marshalled record has [id] as hash key is refused
    with [IDAlreadyExistsStoreError id]. *)
Theorem registration_is_permanent ctx1 ctx2 id keys1 keys2 s s1 between :
  SetKeys ctx1 id keys1 s = (s1, None) →
  files_under_id MarshalMap id keys1 →
  hash_key (MarshalMap {| ID := id; Keys := keys2 |}).1 = Some id →
  outage ctx2 = None →
  let s' := final MarshalMap UnmarshalMap between s1 in
  table (client s') !! id = Some (MarshalMap {| ID := id; Keys := keys1 |}).1 ∧
  ∃ s2, SetKeys ctx2 id keys2 s' = (s2, Some (IDAlreadyExistsStoreError id)).
Proof.
  intros Hset Hk1 Hk2 Ho2.
  destruct (Set_success _ _ _ _ _ Hset) as (k & _ & Hk & _ & Htab & _).
  cbn in Hk. apply Hk1 in Hk as ->.
  assert (table (client (final MarshalMap UnmarshalMap between s1)) !! id
          = Some (MarshalMap {| ID := id; Keys := keys1 |}).1) as Hrec.
  { apply final_keeps_records. by rewrite Htab, lookup_insert_eq. }
  cbn. split; [done|].
  apply (Set_taken ctx2 id keys2 _ id Ho2 Hk2). by rewrite Hrec.
Qed.

(** Expiry: with a positive default time-to-live [d], the entry a write
    made at instant [t0] is ignored by a read after [t0 + d], which sends a
    request to the backend. *)
Lemma expired_entry_is_requeried ctx1 ctx2 id keys s s1 :
  SetKeys ctx1 id keys s = (s1, None) →
  (0 < cache.defaultExpiration (keysCache s))%Z →
  (0 < now ctx1 + cache.defaultExpiration (keysCache s) < now ctx2)%Z →
  cache.Get (keysCache s1) id (now ctx2) = None ∧
  getItemCalls (client (GetKeys ctx2 id s1).1) = S (getItemCalls (client s1)).
Proof.
  intros Hset Hd Ht.
  destruct (Set_success _ _ _ _ _ Hset) as (k & _ & _ & _ & _ & _ & Hc).
  assert (cache.Get (keysCache s1) id (now ctx2) = None) as Hmiss.
  { rewrite Hc. unfold cache.Get, cache.Set_, cache.DefaultExpiration. cbn.
    rewrite lookup_insert_eq. cbn. repeat case_decide; try done; lia. }
  split; [done|]. by apply Get_counts_a_miss.
Qed.

(** A configured time-to-live of 0 does not switch the cache off: the
    store [NewDynamoDBStore] builds keeps entries for ever, and after a
    successful write every read of that identifier, at any instant and
    whether or not the backend can be reached, is answered by the cache
    with the keys written. *)
Lemma zero_ttl_never_expires cfg db ctx1 ctx2 id keys s s1 :
  CacheExpiration cfg = 0%Z →
  NewDynamoDBStore cfg (inl db) = (Some s, None) →
  SetKeys ctx1 id keys s = (s1, None) →
  cache.defaultExpiration (keysCache s) = cache.NoExpiration ∧
  GetKeys ctx2 id s1 = (s1, (keys, None)).
Proof.
  intros Hz [= <-] Hset.
  destruct (Set_success _ _ _ _ _ Hset) as (k & _ & _ & _ & _ & _ & Hc).
  cbn in *. rewrite Hz. cbn. split; [done|].
  apply Get_hit. rewrite Hc. apply cache_Get_Set_same.
  left. cbn. rewrite Hz. done.
Qed.

(** X4, read-through population: when a read misses the cache, its
    request is served and the record under [id] decodes to [it], the read
    returns the keys of [it] and caches them, so that a read of [id] made
    while that entry is unexpired returns the same keys from the cache and
    sends no request. *)
Theorem read_populates_cache ctx ctx' id s av it :
  cache.Get (keysCache s) id (now ctx) = None →
  outage ctx = None →
  table (client s) !! id = Some av →
  UnmarshalMap av item_zero = (it, None) →
  unexpired (keysCache s) (now ctx) (now ctx') →
  let r := GetKeys ctx id s in
  r.2 = (Keys it, None) ∧
  GetKeys ctx' id r.1 = (r.1, (Keys it, None)).
Proof.
  intros Hmiss Ho Hrec Hdec Hlive.
  rewrite (Get_miss _ _ _ Hmiss), Ho, Hrec, Hdec. cbn. split; [done|].
  apply Get_hit. cbn. by apply cache_Get_Set_same.
Qed.

(** The requests one call sends, with and without the cache. *)
Lemma perform_requests ctx c s :
  let db' := client (perform MarshalMap UnmarshalMap ctx c s).1 in
  match c with
  | Get _ =>
      putItemCalls db' = putItemCalls (client s) ∧
      (getItemCalls db' ≤ S (getItemCalls (client s)))%nat
  | SetConditionally _ _ =>
      putItemCalls db' = S (putItemCalls (client s)) ∧
      getItemCalls db' = getItemCalls (client s)
  end.
Proof.
  destruct c as [id|id keys]; cbn.
  - destruct (cache.Get (keysCache s) id (now ctx)) as [x|] eqn:Hg.
    { rewrite (Get_hit _ _ _ _ Hg). cbn. lia. }
    rewrite (Get_miss _ _ _ Hg).
    destruct (outage ctx); [done|].
    destruct (table (client s) !! id); [|done].
    by destruct (UnmarshalMap _ item_zero).2.
  - rewrite Set_cases.
    destruct (outage ctx); [done|].
    destruct (hash_key _) as [k|]; [|done].
    by destruct (table (client s) !! k).
Qed.

Lemma direct_perform_requests ctx tn c db :
  let db' := (direct_perform MarshalMap UnmarshalMap ctx tn c db).1 in
  match c with
  | Get _ =>
      putItemCalls db' = putItemCalls db ∧
      getItemCalls db' = S (getItemCalls db)
  | SetConditionally _ _ =>
      putItemCalls db' = S (putItemCalls db) ∧
      getItemCalls db' = getItemCalls db
  end.
Proof.
  destruct c as [id|id keys]; cbn.
  - rewrite direct_Get_cases.
    destruct (outage ctx); [done|].
    destruct (table db !! id); [|done].
    by destruct (UnmarshalMap _ item_zero).2.
  - rewrite direct_Set_cases.
    destruct (outage ctx); [done|].
    destruct (hash_key _) as [k|]; [|done].
    by destruct (table db !! k).
Qed.

Lemma final_mirrors tn calls : ∀ s db,
  tableName s = tn →
  mirrors UnmarshalMap s db →
  putItemCalls (client s) = putItemCalls db →
  (getItemCalls (client s) ≤ getItemCalls db)%nat →
  Forall (undisturbed MarshalMap UnmarshalMap) calls →
  let s' := final MarshalMap UnmarshalMap calls s in
  let db' := direct_final MarshalMap UnmarshalMap tn calls db in
  table (client s') = table db' ∧
  putItemCalls (client s') = putItemCalls db' ∧
  (getItemCalls (client s') ≤ getItemCalls db')%nat.
Proof.
  induction calls as [|[ctx c] calls IH]; intros s db <- Hm Hp Hg Hall.
  { cbn. by destruct Hm. }
  apply Forall_cons in Hall as [Hc Hall]. cbn [final direct_final].
  destruct (perform_mirrors ctx c s db Hm Hc) as (_ & Hm' & Htn).
  pose proof (perform_requests ctx c s) as Hr.
  pose proof (direct_perform_requests ctx (tableName s) c db) as Hd.
  cbv zeta in Hr, Hd.
  apply IH; [done|done| | |done]; destruct c; lia.
Qed.

(** X9, what the cache saves: over a sequence of calls as in the
    transparency property, the store leaves the table the calls leave with
    no cache in front of it, has sent as many [PutItem] requests and has
    sent no more [GetItem] requests. *)
Theorem cache_only_saves_requests cfg db calls s :
  NewDynamoDBStore cfg (inl db) = (Some s, None) →
  Forall (undisturbed MarshalMap UnmarshalMap) calls →
  let s' := final MarshalMap UnmarshalMap calls s in
  let db' := direct_final MarshalMap UnmarshalMap (TableName cfg) calls db in
  table (client s') = table db' ∧
  putItemCalls (client s') = putItemCalls db' ∧
  (getItemCalls (client s') ≤ getItemCalls db')%nat.
Proof.
  intros [= <-] Hall.
  apply (final_mirrors (TableName cfg) calls
           {| tableName := TableName cfg; client := db;
              keysCache := cache.New (wrap64 (CacheExpiration cfg * Minute))
                             (wrap64 (CacheCleanupInterval cfg * Minute)) |}
           db); [done| |done|done|done].
  split; [done|]. cbn. intros id it. by rewrite lookup_empty.
Qed.

(** *** States a store can reach *)

Lemma perform_coherent ctx c s :
  coherent UnmarshalMap s →
  faithful_on MarshalMap UnmarshalMap c →
  coherent UnmarshalMap (perform MarshalMap UnmarshalMap ctx c s).1.
Proof.
  intros Hcoh Hfaith. destruct c as [id|id keys]; cbn.
  - destruct (cache.Get (keysCache s) id (now ctx)) as [x|] eqn:Hg.
    { by rewrite (Get_hit _ _ _ _ Hg). }
    rewrite (Get_miss _ _ _ Hg).
    destruct (outage ctx); [exact Hcoh|].
    destruct (table (client s) !! id) as [av|] eqn:Hav; [|exact Hcoh].
    destruct (UnmarshalMap av item_zero).2 eqn:Hdec; [exact Hcoh|].
    intros id' it. cbn.
    destruct (decide (id' = id)) as [->|Hne].
    + rewrite lookup_insert_eq. intros [= <-]. by exists av.
    + rewrite lookup_insert_ne by done. apply Hcoh.
  - rewrite Set_cases.
    destruct (outage ctx); [exact Hcoh|].
    destruct (hash_key _) as [k|] eqn:Hk; [|exact Hcoh].
    destruct (table (client s) !! k) eqn:Hfree; [exact Hcoh|].
    destruct (Hfaith k Hk) as [-> [Hdec Hkeys]].
    intros id' it. cbn.
    destruct (decide (id' = id)) as [->|Hne].
    + rewrite !lookup_insert_eq. intros [= <-]. cbn. eauto.
    + rewrite !lookup_insert_ne by done. apply Hcoh.
Qed.

Lemma final_coherent calls : ∀ s,
  coherent UnmarshalMap s →
  Forall (λ x, faithful_on MarshalMap UnmarshalMap x.2) calls →
  coherent UnmarshalMap (final MarshalMap UnmarshalMap calls s).
Proof.
  induction calls as [|[ctx c] calls IH]; intros s Hcoh Hall; [done|].
  apply Forall_cons in Hall as [Hc Hall]. cbn [final].
  apply IH; [|done]. by apply perform_coherent.
Qed.

Lemma fresh_coherent cfg db s :
  NewDynamoDBStore cfg (inl db) = (Some s, None) → coherent UnmarshalMap s.
Proof. intros [= <-] id it. cbn. by rewrite lookup_empty. Qed.

(** In a coherent state an identifier whose record is missing, or does not
    decode, has no cache entry at all. *)
Lemma coherent_no_entry s id :
  coherent UnmarshalMap s →
  (table (client s) !! id = None ∨
   ∃ av e, table (client s) !! id = Some av ∧
           (UnmarshalMap av item_zero).2 = Some e) →
  cache.items (keysCache s) !! id = None.
Proof.
  intros Hcoh Hrec.
  destruct (cache.items (keysCache s) !! id) as [it|] eqn:Hit; [|done].
  destruct (Hcoh id it Hit) as (av & Hav & Hdec & _).
  destruct Hrec as [Habs|(av' & e & Hav' & Hdec')]; congruence.
Qed.

(** X6, the cache stays coherent with the table: in every state the store
    [NewDynamoDBStore] returns can reach through calls whose written
    records the codec is faithful on, whatever the instants and outages
    of the calls, each cache entry has a record under its identifier, and
    that record decodes to the cached keys. *)
Theorem cache_stays_coherent cfg db calls s :
  NewDynamoDBStore cfg (inl db) = (Some s, None) →
  Forall (λ x, faithful_on MarshalMap UnmarshalMap x.2) calls →
  coherent UnmarshalMap (final MarshalMap UnmarshalMap calls s).
Proof.
  intros Hnew Hall. apply final_coherent; [|done].
  by apply (fresh_coherent cfg db).
Qed.

(** X7, an unknown identifier always reaches the backend: in every state
    reached as above, a read of an identifier the table has no record for
    sends one request and returns the nil map, with the error of the
    request when it is not served and with no error when it is, at any
    instant. *)
Theorem unknown_id_reads_absent cfg db calls s ctx id :
  NewDynamoDBStore cfg (inl db) = (Some s, None) →
  Forall (λ x, faithful_on MarshalMap UnmarshalMap x.2) calls →
  let s' := final MarshalMap UnmarshalMap calls s in
  table (client s') !! id = None →
  (GetKeys ctx id s').2 = (None, outage ctx) ∧
  getItemCalls (client (GetKeys ctx id s').1) = S (getItemCalls (client s')).
Proof.
  intros Hnew Hall s' Habs.
  assert (cache.Get (keysCache s') id (now ctx) = None) as Hmiss.
  { apply cache_Get_no_entry, coherent_no_entry; [|by left].
    by apply final_coherent; [apply (fresh_coherent cfg db)|]. }
  by rewrite (Get_miss_absent _ _ _ Hmiss Habs).
Qed.

(** X8, a record that does not decode is never served: in every state
    reached as above, a read of an identifier whose record fails to
    decode with [e] returns the nil map with an error, at any instant: [e]
    when the request is served, the error of the request otherwise. *)
Theorem corrupt_record_never_served cfg db calls s ctx id av e :
  NewDynamoDBStore cfg (inl db) = (Some s, None) →
  Forall (λ x, faithful_on MarshalMap UnmarshalMap x.2) calls →
  let s' := final MarshalMap UnmarshalMap calls s in
  table (client s') !! id = Some av →
  (UnmarshalMap av item_zero).2 = Some e →
  (GetKeys ctx id s').2 = (None, Some (default e (outage ctx))).
Proof.
  intros Hnew Hall s' Hrec Hdec.
  assert (cache.Get (keysCache s') id (now ctx) = None) as Hmiss.
  { apply cache_Get_no_entry, coherent_no_entry; [|right; eauto].
    by apply final_coherent; [apply (fresh_coherent cfg db)|]. }
  rewrite (Get_miss _ _ _ Hmiss), Hrec, Hdec. by destruct (outage ctx).
Qed.

(** *** Lifetimes *)

Lemma wrap64_in_range z :
  (- 2 ^ 63 ≤ z < 2 ^ 63)%Z → wrap64 z = z.
Proof.
  intros Hz. unfold wrap64.
  change (2 ^ 63)%Z with 9223372036854775808%Z in *.
  change (2 ^ 64)%Z with 18446744073709551616%Z.
  rewrite Z.mod_small; lia.
Qed.


(** What the cache answers for an entry it was given at [t0]. *)
Lemma cache_Get_Set_exact c k x t0 t :
  cache.Get (cache.Set_ c k x cache.DefaultExpiration t0) k t =
  if decide (0 < cache.defaultExpiration c ∧
             0 < t0 + cache.defaultExpiration c < t)%Z
  then None else Some x.
Proof.
  unfold cache.Get, cache.Set_, cache.DefaultExpiration. cbn.
  rewrite lookup_insert_eq. cbn.
  repeat case_decide; try done; lia.
Qed.

Lemma perform_keeps_default ctx c s :
  cache.defaultExpiration (keysCache (perform MarshalMap UnmarshalMap ctx c s).1)
  = cache.defaultExpiration (keysCache s).
Proof.
  destruct c as [id|id keys]; cbn.
  - destruct (cache.Get (keysCache s) id (now ctx)) as [x|] eqn:Hg.
    { by rewrite (Get_hit _ _ _ _ Hg). }
    rewrite (Get_miss _ _ _ Hg).
    destruct (outage ctx); [done|].
    destruct (table (client s) !! id); [|done].
    by destruct (UnmarshalMap _ item_zero).2.
  - rewrite Set_cases.
    destruct (outage ctx); [done|].
    destruct (hash_key _) as [k|]; [|done].
    by destruct (table (client s) !! k).
Qed.

Lemma final_keeps_default calls : ∀ s,
  cache.defaultExpiration (keysCache (final MarshalMap UnmarshalMap calls s))
  = cache.defaultExpiration (keysCache s).
Proof.
  induction calls as [|[ctx c] calls IH]; intros s; [done|].
  cbn [final]. by rewrite IH, perform_keeps_default.
Qed.

(** A read leaves an entry that is live at its instant as it is, whichever
    identifier it reads. *)
Lemma Get_keeps_live_entry ctx id' s id it :
  cache.items (keysCache s) !! id = Some it →
  (now ctx ≤ cache.Expiration it)%Z →
  cache.items (keysCache (GetKeys ctx id' s).1) !! id = Some it.
Proof.
  intros Hit Hlive.
  destruct (cache.Get (keysCache s) id' (now ctx)) as [x|] eqn:Hg.
  { by rewrite (Get_hit _ _ _ _ Hg). }
  assert (id' ≠ id) as Hne.
  { intros ->. unfold cache.Get in Hg. rewrite Hit in Hg.
    repeat case_decide; try done; lia. }
  rewrite (Get_miss _ _ _ Hg).
  destruct (outage ctx); [done|].
  destruct (table (client s) !! id'); [|done].
  destruct (UnmarshalMap _ item_zero).2; [done|].
  cbn. by rewrite lookup_insert_ne.
Qed.

Lemma reads_keep_live_entry reads : ∀ s id it,
  cache.items (keysCache s) !! id = Some it →
  Forall (read_by (cache.Expiration it)) reads →
  cache.items (keysCache (final MarshalMap UnmarshalMap reads s)) !! id
  = Some it.
Proof.
  induction reads as [|[ctx c] reads IH]; intros s id it Hit Hall; [done|].
  apply Forall_cons in Hall as [Hc Hall]. cbn [final].
  apply IH; [|done].
  destruct c as [id'|id' keys']; [|done]. cbn in Hc |- *.
  pose proof (Get_keeps_live_entry ctx id' s id it Hit Hc) as Hkeep.
  by destruct (GetKeys ctx id' s) as [s' [keys err]].
Qed.

(** X3, the countdown is fixed at insertion: with a positive default
    time-to-live [d], the entry a write made at instant [t0] is not kept
    alive by being read.  After any sequence of reads, of this or of other
    identifiers, made up to [t0 + d], a read after [t0 + d] misses the
    cache and sends a request to the backend. *)
Theorem reads_do_not_extend_lifetime ctx1 ctx2 id keys s s1 reads :
  SetKeys ctx1 id keys s = (s1, None) →
  let d := cache.defaultExpiration (keysCache s) in
  (0 < d)%Z → (0 < now ctx1 + d < now ctx2)%Z →
  Forall (read_by (now ctx1 + d)) reads →
  let s' := final MarshalMap UnmarshalMap reads s1 in
  cache.Get (keysCache s') id (now ctx2) = None ∧
  getItemCalls (client (GetKeys ctx2 id s').1) = S (getItemCalls (client s')).
Proof.
  intros Hset d Hd Ht Hreads s'.
  destruct (Set_success _ _ _ _ _ Hset) as (k & _ & _ & _ & _ & _ & Hc).
  assert (cache.items (keysCache s') !! id
          = Some {| cache.Object := keys;
                    cache.Expiration := (now ctx1 + d)%Z |}) as Hit.
  { apply reads_keep_live_entry; [|done].
    rewrite Hc. unfold cache.Set_, cache.DefaultExpiration. cbn.
    rewrite lookup_insert_eq. fold d. by rewrite !decide_True. }
  assert (cache.Get (keysCache s') id (now ctx2) = None) as Hmiss.
  { unfold cache.Get. rewrite Hit. cbn. rewrite !decide_True; [done|lia..]. }
  split; [done|]. by apply Get_counts_a_miss.
Qed.

(** X10, the configured lifetime: when [CacheExpiration] minutes is
    positive and an entry is written at an instant [t0 ≥ 0] such that
    [t0] plus that many minutes is still a 64-bit instant, at any point of
    the life of the store [NewDynamoDBStore] returned, the entry is served
    by the cache up to [t0] plus that many minutes, and not after. *)
Theorem configured_lifetime_is_exact cfg db calls s ctx1 id keys s1 t :
  NewDynamoDBStore cfg (inl db) = (Some s, None) →
  (0 < CacheExpiration cfg * Minute)%Z →
  SetKeys ctx1 id keys (final MarshalMap UnmarshalMap calls s) = (s1, None) →
  (0 ≤ now ctx1)%Z →
  (now ctx1 + CacheExpiration cfg * Minute < 2 ^ 63)%Z →
  cache.Get (keysCache s1) id t =
  if decide (t ≤ now ctx1 + CacheExpiration cfg * Minute)%Z
  then Some keys else None.
Proof.
  intros [= <-] Hm Hset Ht0 Hfit.
  destruct (Set_success _ _ _ _ _ Hset) as (k & _ & _ & _ & _ & _ & Hc).
  rewrite Hc, cache_Get_Set_exact, final_keeps_default. cbn.
  rewrite wrap64_in_range.
  - rewrite (decide_False (P := (CacheExpiration cfg * Minute = 0)%Z)) by lia.
    repeat case_decide; try done; lia.
  - change (2 ^ 63)%Z with 9223372036854775808%Z in *. lia.
Qed.


(** *** What a call touches *)

(** X12, one request per call at most: a read sends no [PutItem] and
    leaves the table as it is, and sends one [GetItem] exactly when the
    cache has no live entry for the identifier; a write sends one
    [PutItem] and never a [GetItem], whatever the cache holds. *)
Theorem requests_per_call ctx c s :
  let db := client s in
  let db' := client (perform MarshalMap UnmarshalMap ctx c s).1 in
  match c with
  | Get id =>
      table db' = table db ∧
      putItemCalls db' = putItemCalls db ∧
      getItemCalls db' =
        match cache.Get (keysCache s) id (now ctx) with
        | Some _ => getItemCalls db
        | None => S (getItemCalls db)
        end
  | SetConditionally _ _ =>
      putItemCalls db' = S (putItemCalls db) ∧
      getItemCalls db' = getItemCalls db
  end.
Proof.
  destruct c as [id|id keys]; cbn.
  - destruct (cache.Get (keysCache s) id (now ctx)) as [x|] eqn:Hg.
    { by rewrite (Get_hit _ _ _ _ Hg). }
    rewrite (Get_miss _ _ _ Hg).
    destruct (outage ctx); [done|].
    destruct (table (client s) !! id); [|done].
    by destruct (UnmarshalMap _ item_zero).2.
  - rewrite Set_cases.
    destruct (outage ctx); [done|].
    destruct (hash_key _) as [k|]; [|done].
    by destruct (table (client s) !! k).
Qed.

(** X13, a call touches one cache entry at most: the entries of all
    identifiers other than the one the call is about, and the default
    time-to-live, are after the call what they were before. *)
Theorem other_entries_untouched ctx c s k :
  k ≠ call_id c →
  let c' := keysCache (perform MarshalMap UnmarshalMap ctx c s).1 in
  cache.items c' !! k = cache.items (keysCache s) !! k ∧
  cache.defaultExpiration c' = cache.defaultExpiration (keysCache s).
Proof.
  intros Hne. destruct c as [id|id keys]; cbn in *.
  - destruct (cache.Get (keysCache s) id (now ctx)) as [x|] eqn:Hg.
    { by rewrite (Get_hit _ _ _ _ Hg). }
    rewrite (Get_miss _ _ _ Hg).
    destruct (outage ctx); [done|].
    destruct (table (client s) !! id); [|done].
    destruct (UnmarshalMap _ item_zero).2; [done|].
    cbn. by rewrite lookup_insert_ne.
  - rewrite Set_cases.
    destruct (outage ctx); [done|].
    destruct (hash_key _) as [k'|]; [|done].
    destruct (table (client s) !! k'); [done|].
    cbn. by rewrite lookup_insert_ne.
Qed.

(** X14, a nil map is registered like any other, and then reads as
    absent: after a successful write of the nil map under [id], its record
    filed under [id], a read of [id] made while the entry is unexpired
    returns the nil map and no error, which is what a read of an unknown
    identifier returns, while a served write under [id] whose marshalled
    record has [id] as hash key is refused with
    [IDAlreadyExistsStoreError]. *)
Theorem nil_keys_read_as_absent ctx1 ctx2 ctx3 id keys2 s s1 :
  SetKeys ctx1 id None s = (s1, None) →
  files_under_id MarshalMap id None →
  hash_key (MarshalMap {| ID := id; Keys := keys2 |}).1 = Some id →
  unexpired (keysCache s) (now ctx1) (now ctx2) →
  outage ctx3 = None →
  GetKeys ctx2 id s1 = (s1, (None, None)) ∧
  ∃ s2, SetKeys ctx3 id keys2 s1 = (s2, Some (IDAlreadyExistsStoreError id)).
Proof.
  intros Hset Hk1 Hk2 Hlive Ho3.
  destruct (Set_success _ _ _ _ _ Hset) as (k & _ & Hk & _ & Htab & _ & Hc).
  cbn in Hk. apply Hk1 in Hk as ->. split.
  - apply Get_hit. rewrite Hc. by apply cache_Get_Set_same.
  - apply (Set_taken ctx3 id keys2 s1 id Ho3 Hk2).
    rewrite Htab, lookup_insert_eq. eauto.
Qed.

(** X5, an expired entry is renewed by the next served read: with a
    positive default time-to-live [d], when the entry a write made at
    [t0] has expired and the record written is filed under [id] and reads
    back as written, a served read returns the keys written, read back
    from the table, and caches them afresh: a read up to [d] after that
    one is answered by the cache again. *)
Theorem expired_entry_is_renewed ctx1 ctx2 ctx3 id keys s s1 :
  SetKeys ctx1 id keys s = (s1, None) →
  files_under_id MarshalMap id keys →
  reads_back MarshalMap UnmarshalMap id keys →
  let d := cache.defaultExpiration (keysCache s) in
  (0 < d)%Z → (0 < now ctx1 + d < now ctx2)%Z →
  outage ctx2 = None →
  (now ctx3 ≤ now ctx2 + d)%Z →
  let r := GetKeys ctx2 id s1 in
  r.2 = (keys, None) ∧
  getItemCalls (client r.1) = S (getItemCalls (client s1)) ∧
  GetKeys ctx3 id r.1 = (r.1, (keys, None)).
Proof.
  intros Hset Hk [Hdec Hkeys] d Hd Ht Ho Ht3.
  destruct (Set_success _ _ _ _ _ Hset) as (k & _ & Hk' & _ & Htab & _ & Hc).
  cbn in Hk', Hdec, Hkeys. apply Hk in Hk' as ->.
  assert (cache.Get (keysCache s1) id (now ctx2) = None) as Hmiss.
  { rewrite Hc, cache_Get_Set_exact. fold d. by rewrite decide_True. }
  cbn. rewrite (Get_miss _ _ _ Hmiss), Ho, Htab, lookup_insert_eq, Hdec.
  cbn. rewrite Hkeys. split; [done|]. split; [done|].
  apply Get_hit. cbn. apply cache_Get_Set_same.
  right. rewrite Hc. cbn. by fold d.
Qed.

(** X15, a registration is seen through every store over the table: after
    a write under [id] has succeeded through one store, with a record
    filed under [id] that reads back as written, any other store whose
    client is on the same table and whose cache has no entry for [id]
    returns the keys written to a served read, and refuses with
    [IDAlreadyExistsStoreError] a served write under [id] whose marshalled
    record has [id] as hash key. *)
Theorem registration_is_seen_by_replicas ctx1 ctx2 ctx3 id keys1 keys2 s s1 r :
  SetKeys ctx1 id keys1 s = (s1, None) →
  files_under_id MarshalMap id keys1 →
  reads_back MarshalMap UnmarshalMap id keys1 →
  hash_key (MarshalMap {| ID := id; Keys := keys2 |}).1 = Some id →
  table (client r) = table (client s1) →
  cache.items (keysCache r) !! id = None →
  outage ctx2 = None → outage ctx3 = None →
  (GetKeys ctx2 id r).2 = (keys1, None) ∧
  ∃ r', SetKeys ctx3 id keys2 r = (r', Some (IDAlreadyExistsStoreError id)).
Proof.
  intros Hset Hk1 [Hdec Hkeys] Hk2 Hsame Hnone Ho2 Ho3.
  destruct (Set_success _ _ _ _ _ Hset) as (k & _ & Hk & _ & Htab & _).
  cbn in Hk, Hdec, Hkeys. apply Hk1 in Hk as ->.
  assert (table (client r) !! id
          = Some (MarshalMap {| ID := id; Keys := keys1 |}).1) as Hrec.
  { by rewrite Hsame, Htab, lookup_insert_eq. }
  split.
  - rewrite (Get_miss _ _ _ (cache_Get_no_entry _ _ _ Hnone)), Ho2, Hrec, Hdec.
    cbn. by rewrite Hkeys.
  - apply (Set_taken ctx3 id keys2 r id Ho3 Hk2). by rewrite Hrec.
Qed.

End Properties.

(** * The properties at concrete inputs *)

Lemma create_once_witness :
  ∃ s2,
    SetEncryptedDataKeysConditionally dynamodbattribute.MarshalMap
      (served 2) "tenant-42" (dek "ct2") registered
    = (s2, Some (IDAlreadyExistsStoreError "tenant-42")) ∧
    (GetEncryptedDataKeys dynamodbattribute.UnmarshalMap
       (served (2 * Minute)) "tenant-42" s2).2 = (dek "ct1", None).
Proof.
  apply (create_once dynamodbattribute.MarshalMap dynamodbattribute.UnmarshalMap
           (served 1) (served 2) (served (2 * Minute))
           "tenant-42" (dek "ct1") (dek "ct2") (sample_store 1) registered).
  - vm_compute. reflexivity.
  - intros k Hk. vm_compute in Hk. congruence.
  - vm_compute. reflexivity.
  - reflexivity.
  - right. split; [reflexivity|]. split; vm_compute; reflexivity.
Defined.

Lemma read_your_write_witness :
  GetEncryptedDataKeys dynamodbattribute.UnmarshalMap
    (served (1 + Minute)) "tenant-42" registered
  = (registered, (dek "ct1", None)).
Proof.
  apply (read_your_write dynamodbattribute.MarshalMap
           dynamodbattribute.UnmarshalMap (served 1) (served (1 + Minute))
           "tenant-42" (dek "ct1") (sample_store 1) registered).
  - vm_compute. reflexivity.
  - right. vm_compute. discriminate.
Defined.

Lemma get_unknown_is_absent_witness :
  (GetEncryptedDataKeys dynamodbattribute.UnmarshalMap
     (served 1) "tenant-42" (sample_store 1)).2 = (None, None).
Proof.
  apply (get_unknown_is_absent dynamodbattribute.UnmarshalMap
           (served 1) "tenant-42" (sample_store 1));
    vm_compute; reflexivity.
Defined.

Lemma failure_leaves_cache_witness :
  keysCache
    (perform dynamodbattribute.MarshalMap dynamodbattribute.UnmarshalMap
       (served 2) (SetConditionally "tenant-42" (dek "ct2")) registered).1
  = keysCache registered.
Proof.
  apply (failure_leaves_cache dynamodbattribute.MarshalMap
           dynamodbattribute.UnmarshalMap (served 2)
           (SetConditionally "tenant-42" (dek "ct2")) registered).
  vm_compute. eexists. reflexivity.
Defined.

Lemma corrupt_record_is_error_witness :
  (GetEncryptedDataKeys dynamodbattribute.UnmarshalMap
     (served 1) "broken" (sample_store 1)).2
  = (None, Some dynamodbattribute.UnmarshalTypeError).
Proof.
  destruct (corrupt_record_is_error dynamodbattribute.UnmarshalMap
              (served 1) "broken" (sample_store 1)
              {[ "id" := AvS "broken"; "keys" := AvBOOL true ]}
              dynamodbattribute.UnmarshalTypeError)
    as [(e' & Hres & He') _]; [vm_compute; reflexivity ..|].
  rewrite Hres, He'; reflexivity.
Defined.

Lemma cache_soundness_preserved_witness :
  cache_sound (sample_store 1) ∧ cache_sound registered.
Proof.
  assert (cache_sound (sample_store 1)) as Hsound.
  { intros id [it Hit]. vm_compute in Hit. discriminate. }
  split; [exact Hsound|].
  apply (cache_soundness_preserved dynamodbattribute.MarshalMap
           dynamodbattribute.UnmarshalMap (served 1)
           (SetConditionally "tenant-42" (dek "ct1")) (sample_store 1)).
  - intros k Hk. vm_compute in Hk. congruence.
  - exact Hsound.
Defined.

Lemma cache_is_transparent_witness :
  run dynamodbattribute.MarshalMap dynamodbattribute.UnmarshalMap scenario
    (sample_store 0)
  = run dynamodbattribute.MarshalMap dynamodbattribute.UnmarshalMap scenario
      (sample_store 1) ∧
  run dynamodbattribute.MarshalMap dynamodbattribute.UnmarshalMap scenario
    (sample_store 1)
  = direct_run dynamodbattribute.MarshalMap dynamodbattribute.UnmarshalMap
      "kms-keys" scenario sample_db.
Proof.
  apply (cache_is_transparent dynamodbattribute.MarshalMap
           dynamodbattribute.UnmarshalMap (sample_config 0) (sample_config 1)
           sample_db scenario (sample_store 0) (sample_store 1));
    [reflexivity | reflexivity | reflexivity |].
  unfold scenario.
  repeat first [apply Forall_nil | apply Forall_cons; split];
    first [ reflexivity
          | intros k Hk; vm_compute in Hk; injection Hk as <-;
            split; [reflexivity|]; split; vm_compute; reflexivity ].
Defined.

Lemma marshal_error_is_discarded_witness :
  let r := SetEncryptedDataKeysConditionally dynamodbattribute.MarshalMap
             (served 1) "tenant-42" (Some {[ "" := "ct" ]}) (sample_store 1) in
  r.2 = Some ValidationException ∧
  putItemCalls (client r.1) = 1 ∧
  table (client r.1) = sample_table.
Proof.
  destruct (marshal_error_is_discarded dynamodbattribute.MarshalMap
              (served 1) "tenant-42" (Some {[ "" := "ct" ]}) (sample_store 1)
              ∅ dynamodbattribute.InvalidMarshalError) as [_ Hres].
  { vm_compute. reflexivity. }
  cbv zeta. rewrite Hres. repeat split; vm_compute; reflexivity.
Defined.

Lemma absent_is_not_cached_witness :
  let s1 := (GetEncryptedDataKeys dynamodbattribute.UnmarshalMap
               (served 1) "tenant-42" (sample_store 1)).1 in
  keysCache s1 = keysCache (sample_store 1) ∧
  getItemCalls (client (GetEncryptedDataKeys dynamodbattribute.UnmarshalMap
                          (served 2) "tenant-42" s1).1) = 2.
Proof.
  destruct (absent_is_not_cached dynamodbattribute.UnmarshalMap
              (served 1) (served 2) "tenant-42" (sample_store 1))
    as (Hcache & _ & Hnext).
  { vm_compute. reflexivity. }
  split; [exact Hcache|].
  destruct Hnext as [Hcalls _].
  { right. split; [vm_compute; reflexivity | vm_compute; discriminate]. }
  rewrite Hcalls. vm_compute. reflexivity.
Defined.

(** The counterexample to C8 as stated: a time-to-live of 0 is not "every
    read answered by the durable backend".  In the store [NewDynamoDBStore]
    builds for a [CacheExpiration] of 0, once [tenant-42] is registered, a
    read made a thousand minutes later is answered by the cache, and no
    request has been sent.  With the backend out of reach that store still
    returns the keys, where the read answered by the backend returns the
    error of the request; and on the same two calls the store configured
    with 0 and the store configured with one minute return different
    outcomes.  With every request served the outcomes differ as well: an
    empty map is stored as [NULL], so after its registration the read made
    two minutes later returns the empty map from the store configured with
    0 and the nil map from the store configured with one minute. *)
Lemma zero_ttl_is_not_cache_off :
  NewDynamoDBStore (sample_config 0) (inl sample_db)
  = (Some (sample_store 0), None) ∧
  GetEncryptedDataKeys dynamodbattribute.UnmarshalMap
    (served (1000 * Minute)) "tenant-42" registered0
  = (registered0, (dek "ct1", None)) ∧
  getItemCalls (client registered0) = 0 ∧
  (GetEncryptedDataKeys dynamodbattribute.UnmarshalMap
     (unserved (1000 * Minute)) "tenant-42" registered0).2
  = (dek "ct1", None) ∧
  (direct_Get dynamodbattribute.UnmarshalMap
     (unserved (1000 * Minute)) "kms-keys" "tenant-42" (client registered0)).2
  = (None, Some (AwsError "RequestError" "send request failed")) ∧
  run dynamodbattribute.MarshalMap dynamodbattribute.UnmarshalMap
    [ (served 1, SetConditionally "tenant-42" (dek "ct1"));
      (unserved (2 * Minute), Get "tenant-42") ] (sample_store 0)
  ≠ run dynamodbattribute.MarshalMap dynamodbattribute.UnmarshalMap
      [ (served 1, SetConditionally "tenant-42" (dek "ct1"));
        (unserved (2 * Minute), Get "tenant-42") ] (sample_store 1) ∧
  run dynamodbattribute.MarshalMap dynamodbattribute.UnmarshalMap
    [ (served 1, SetConditionally "tenant-42" (Some ∅));
      (served (2 * Minute), Get "tenant-42") ] (sample_store 0)
  = [ SetDone None; Got (Some ∅) None ] ∧
  run dynamodbattribute.MarshalMap dynamodbattribute.UnmarshalMap
    [ (served 1, SetConditionally "tenant-42" (Some ∅));
      (served (2 * Minute), Get "tenant-42") ] (sample_store 1)
  = [ SetDone None; Got None None ].
Proof.
  repeat split; try (vm_compute; reflexivity).
  intros H. vm_compute in H. discriminate.
Qed.

(** The counterexample to C1 as stated, on the store in which [tenant-42]
    has just been registered.  A second registration whose keys have an
    empty map key is refused, but with the validation error of the
    backend: marshalling failed, and the put was sent with an attribute
    map that has no hash key.  A second registration whose request is not
    served returns the error of the request.  And when the keys first
    registered are the empty map, which is stored as [NULL], the second
    registration is refused as the claim says, but the read made after the
    cache entry has expired returns the nil map, not the empty map. *)
Lemma create_once_fails_as_stated :
  run dynamodbattribute.MarshalMap dynamodbattribute.UnmarshalMap
    [ (served 1, SetConditionally "tenant-42" (dek "ct1"));
      (served 2, SetConditionally "tenant-42" (Some {[ "" := "ct" ]})) ]
    (sample_store 1)
  = [ SetDone None; SetDone (Some ValidationException) ] ∧
  run dynamodbattribute.MarshalMap dynamodbattribute.UnmarshalMap
    [ (served 1, SetConditionally "tenant-42" (dek "ct1"));
      (unserved 2, SetConditionally "tenant-42" (dek "ct2")) ]
    (sample_store 1)
  = [ SetDone None;
      SetDone (Some (AwsError "RequestError" "send request failed")) ] ∧
  run dynamodbattribute.MarshalMap dynamodbattribute.UnmarshalMap
    [ (served 1, SetConditionally "tenant-42" (Some ∅));
      (served 2, SetConditionally "tenant-42" (dek "ct2"));
      (served (2 * Minute), Get "tenant-42") ]
    (sample_store 1)
  = [ SetDone None;
      SetDone (Some (IDAlreadyExistsStoreError "tenant-42"));
      Got None None ].
Proof. repeat split; vm_compute; reflexivity. Qed.

(** The scenario of the spec on an empty table: unknown, registered, read
    back, refused, read back again. *)
Example spec_scenario :
  run dynamodbattribute.MarshalMap dynamodbattribute.UnmarshalMap
    [ (served 1, Get "tenant-42");
      (served 2, SetConditionally "tenant-42" (dek "ct1"));
      (served 3, Get "tenant-42");
      (served 4, SetConditionally "tenant-42" (dek "ct2"));
      (served 5, Get "tenant-42") ]
    {| tableName := "kms-keys";
       client := {| table := ∅; getItemCalls := 0; putItemCalls := 0 |};
       keysCache := cache.New Minute Minute |}
  = [ Got None None; SetDone None; Got (dek "ct1") None;
      SetDone (Some (IDAlreadyExistsStoreError "tenant-42"));
      Got (dek "ct1") None ].
Proof. vm_compute. reflexivity. Qed.

Lemma records_are_permanent_witness :
  table (client (final dynamodbattribute.MarshalMap
                   dynamodbattribute.UnmarshalMap scenario (sample_store 1)))
    !! "broken"
  = Some {[ "id" := AvS "broken"; "keys" := AvBOOL true ]}.
Proof.
  apply (records_are_permanent dynamodbattribute.MarshalMap
           dynamodbattribute.UnmarshalMap scenario (sample_store 1)).
  vm_compute. reflexivity.
Defined.

Lemma registration_is_permanent_witness :
  ∃ s2,
    SetEncryptedDataKeysConditionally dynamodbattribute.MarshalMap
      (served (5 * Minute)) "tenant-42" (dek "ct2")
      (final dynamodbattribute.MarshalMap dynamodbattribute.UnmarshalMap
         scenario registered)
    = (s2, Some (IDAlreadyExistsStoreError "tenant-42")).
Proof.
  apply (registration_is_permanent dynamodbattribute.MarshalMap
           dynamodbattribute.UnmarshalMap (served 1) (served (5 * Minute))
           "tenant-42" (dek "ct1") (dek "ct2") (sample_store 1) registered
           scenario).
  - vm_compute. reflexivity.
  - intros k Hk. vm_compute in Hk. congruence.
  - vm_compute. reflexivity.
  - reflexivity.
Defined.

Lemma read_populates_cache_witness :
  (GetEncryptedDataKeys dynamodbattribute.UnmarshalMap
     (served 1) "tenant-7" (sample_store 1)).2 = (dek "ct7", None).
Proof.
  apply (read_populates_cache dynamodbattribute.UnmarshalMap
           (served 1) (served 2) "tenant-7" (sample_store 1)
           {[ "id" := AvS "tenant-7"; "keys" := AvM {[ "dek" := AvS "ct7" ]} ]}
           {| ID := "tenant-7"; Keys := dek "ct7" |}).
  - vm_compute. reflexivity.
  - reflexivity.
  - vm_compute. reflexivity.
  - vm_compute. reflexivity.
  - right. vm_compute. discriminate.
Defined.

Lemma cache_only_saves_requests_witness :
  (getItemCalls
     (client (final dynamodbattribute.MarshalMap dynamodbattribute.UnmarshalMap
                scenario (sample_store 1)))
   ≤ getItemCalls
       (direct_final dynamodbattribute.MarshalMap dynamodbattribute.UnmarshalMap
          "kms-keys" scenario sample_db))%nat.
Proof.
  apply (cache_only_saves_requests dynamodbattribute.MarshalMap
           dynamodbattribute.UnmarshalMap (sample_config 1) sample_db
           scenario (sample_store 1)); [reflexivity|].
  unfold scenario.
  repeat first [apply Forall_nil | apply Forall_cons; split];
    first [ reflexivity
          | intros k Hk; vm_compute in Hk; injection Hk as <-;
            split; [reflexivity|]; split; vm_compute; reflexivity ].
Defined.

Lemma cache_stays_coherent_witness :
  coherent dynamodbattribute.UnmarshalMap
    (final dynamodbattribute.MarshalMap dynamodbattribute.UnmarshalMap
       scenario (sample_store 1)) ∧
  is_Some (cache.items
             (keysCache (final dynamodbattribute.MarshalMap
                           dynamodbattribute.UnmarshalMap
                           scenario (sample_store 1))) !! "tenant-42").
Proof.
  split; [|vm_compute; eexists; reflexivity].
  apply (cache_stays_coherent dynamodbattribute.MarshalMap
           dynamodbattribute.UnmarshalMap (sample_config 1) sample_db
           scenario (sample_store 1)); [reflexivity|].
  unfold scenario.
  repeat first [apply Forall_nil | apply Forall_cons; split];
    first [ exact I
          | intros k Hk; vm_compute in Hk; injection Hk as <-;
            split; [reflexivity|]; split; vm_compute; reflexivity ].
Defined.

Lemma unknown_id_reads_absent_witness :
  (GetEncryptedDataKeys dynamodbattribute.UnmarshalMap
     (unserved (5 * Minute)) "tenant-43"
     (final dynamodbattribute.MarshalMap dynamodbattribute.UnmarshalMap
        scenario (sample_store 1))).2
  = (None, Some (AwsError "RequestError" "send request failed")).
Proof.
  destruct (unknown_id_reads_absent dynamodbattribute.MarshalMap
              dynamodbattribute.UnmarshalMap (sample_config 1) sample_db
              scenario (sample_store 1) (unserved (5 * Minute)) "tenant-43")
    as [Hres _]; [reflexivity| |vm_compute; reflexivity|exact Hres].
  unfold scenario.
  repeat first [apply Forall_nil | apply Forall_cons; split];
    first [ exact I
          | intros k Hk; vm_compute in Hk; injection Hk as <-;
            split; [reflexivity|]; split; vm_compute; reflexivity ].
Defined.

Lemma corrupt_record_never_served_witness :
  (GetEncryptedDataKeys dynamodbattribute.UnmarshalMap
     (served (5 * Minute)) "broken"
     (final dynamodbattribute.MarshalMap dynamodbattribute.UnmarshalMap
        scenario (sample_store 1))).2
  = (None, Some dynamodbattribute.UnmarshalTypeError).
Proof.
  apply (corrupt_record_never_served dynamodbattribute.MarshalMap
           dynamodbattribute.UnmarshalMap (sample_config 1) sample_db
           scenario (sample_store 1) (served (5 * Minute)) "broken"
           {[ "id" := AvS "broken"; "keys" := AvBOOL true ]}
           dynamodbattribute.UnmarshalTypeError);
    [reflexivity| |vm_compute; reflexivity|vm_compute; reflexivity].
  unfold scenario.
  repeat first [apply Forall_nil | apply Forall_cons; split];
    first [ exact I
          | intros k Hk; vm_compute in Hk; injection Hk as <-;
            split; [reflexivity|]; split; vm_compute; reflexivity ].
Defined.

Lemma reads_do_not_extend_lifetime_witness :
  cache.Get
    (keysCache
       (final dynamodbattribute.MarshalMap dynamodbattribute.UnmarshalMap
          [ (served 2, Get "tenant-42"); (served 5, Get "tenant-7");
            (served Minute, Get "tenant-42") ] registered))
    "tenant-42" (2 * Minute) = None.
Proof.
  apply (reads_do_not_extend_lifetime dynamodbattribute.MarshalMap
           dynamodbattribute.UnmarshalMap (served 1) (served (2 * Minute))
           "tenant-42" (dek "ct1") (sample_store 1) registered
           [ (served 2, Get "tenant-42"); (served 5, Get "tenant-7");
             (served Minute, Get "tenant-42") ]).
  - vm_compute. reflexivity.
  - vm_compute. reflexivity.
  - vm_compute. split; reflexivity.
  - repeat first [apply Forall_nil | apply Forall_cons; split];
      first [exact I | vm_compute; discriminate].
Defined.

Lemma configured_lifetime_is_exact_witness :
  cache.Get (keysCache registered) "tenant-42" (1 + Minute) = Some (dek "ct1") ∧
  cache.Get (keysCache registered) "tenant-42" (2 + Minute) = None.
Proof.
  split.
  - etransitivity.
    + apply (configured_lifetime_is_exact dynamodbattribute.MarshalMap
               dynamodbattribute.UnmarshalMap (sample_config 1) sample_db []
               (sample_store 1) (served 1) "tenant-42" (dek "ct1") registered
               (1 + Minute)).
      * reflexivity.
      * vm_compute. reflexivity.
      * vm_compute. reflexivity.
      * vm_compute. discriminate.
      * vm_compute. reflexivity.
    + vm_compute. reflexivity.
  - vm_compute. reflexivity.
Defined.


Lemma other_entries_untouched_witness :
  cache.items
    (keysCache (perform dynamodbattribute.MarshalMap
                  dynamodbattribute.UnmarshalMap
                  (served 2) (Get "tenant-7") registered).1) !! "tenant-42"
  = cache.items (keysCache registered) !! "tenant-42".
Proof.
  apply (other_entries_untouched dynamodbattribute.MarshalMap
           dynamodbattribute.UnmarshalMap (served 2) (Get "tenant-7")
           registered "tenant-42").
  vm_compute. discriminate.
Defined.

Lemma nil_keys_read_as_absent_witness :
  (GetEncryptedDataKeys dynamodbattribute.UnmarshalMap
     (served 2) "tenant-42"
     (SetEncryptedDataKeysConditionally dynamodbattribute.MarshalMap
        (served 1) "tenant-42" None (sample_store 1)).1).2
  = (None, None).
Proof.
  destruct (nil_keys_read_as_absent dynamodbattribute.MarshalMap
              dynamodbattribute.UnmarshalMap (served 1) (served 2) (served 3)
              "tenant-42" (dek "ct2") (sample_store 1)
              (SetEncryptedDataKeysConditionally dynamodbattribute.MarshalMap
                 (served 1) "tenant-42" None (sample_store 1)).1)
    as [Hread _].
  - vm_compute. reflexivity.
  - intros k Hk. vm_compute in Hk. congruence.
  - vm_compute. reflexivity.
  - right. vm_compute. discriminate.
  - reflexivity.
  - rewrite Hread. reflexivity.
Defined.

Lemma expired_entry_is_renewed_witness :
  let r := GetEncryptedDataKeys dynamodbattribute.UnmarshalMap
             (served (2 * Minute)) "tenant-42" registered in
  r.2 = (dek "ct1", None) ∧
  GetEncryptedDataKeys dynamodbattribute.UnmarshalMap
    (served (3 * Minute)) "tenant-42" r.1 = (r.1, (dek "ct1", None)).
Proof.
  destruct (expired_entry_is_renewed dynamodbattribute.MarshalMap
              dynamodbattribute.UnmarshalMap (served 1) (served (2 * Minute))
              (served (3 * Minute)) "tenant-42" (dek "ct1") (sample_store 1)
              registered) as (Hres & _ & Hnext).
  - vm_compute. reflexivity.
  - intros k Hk. vm_compute in Hk. congruence.
  - split; vm_compute; reflexivity.
  - vm_compute. reflexivity.
  - vm_compute. split; reflexivity.
  - reflexivity.
  - vm_compute. discriminate.
  - split; [exact Hres | exact Hnext].
Defined.

Lemma registration_is_seen_by_replicas_witness :
  (GetEncryptedDataKeys dynamodbattribute.UnmarshalMap
     (served 7) "tenant-42"
     {| tableName := "kms-keys"; client := client registered;
        keysCache := cache.New Minute Minute |}).2
  = (dek "ct1", None).
Proof.
  destruct (registration_is_seen_by_replicas dynamodbattribute.MarshalMap
              dynamodbattribute.UnmarshalMap (served 1) (served 7) (served 8)
              "tenant-42" (dek "ct1") (dek "ct2") (sample_store 1) registered
              {| tableName := "kms-keys"; client := client registered;
                 keysCache := cache.New Minute Minute |}) as [Hread _].
  - vm_compute. reflexivity.
  - intros k Hk. vm_compute in Hk. congruence.
  - split; vm_compute; reflexivity.
  - vm_compute. reflexivity.
  - reflexivity.
  - vm_compute. reflexivity.
  - reflexivity.
  - reflexivity.
  - exact Hread.
Defined.
